(** * kafka_connect_exporter: a shallow embedding of the collector

    The development follows [kafka_connect_exporter.go]: the metric
    descriptors, the decoded JSON shapes ([connectors], [status],
    [connector], [task]), the [Exporter] with its two gauges, [Describe],
    [Collect] and [main].

    What the Go program takes from its libraries and what is not part of the
    repository is kept apart:
    - Unicode tables, float parsing and printing, key folding of
      encoding/json and [url.Parse] are fields of the class [GoLib];
    - the upstream (what [client.Get], [ioutil.ReadAll] and [Body.Close]
      return) is an argument of [Collect];
    - everything observable in a cycle is recorded in one trace of [event]s:
      gauge updates, sends on the metric channel, log lines and the three
      HTTP operations. *)

From Stdlib Require Import ZArith String Ascii List Lia Bool.
From stdpp Require Import base option list strings gmap pretty.

Local Open Scope string_scope.
Local Open Scope Z_scope.
Set Warnings "-register-all".

(** ** Library parameters *)

Class GoLib := {
  (** [strings.Map(unicode.ToLower, s)]: the branch of [strings.ToLower]
      for a string with a byte outside ASCII. *)
  unicode_ToLower : string -> string;
  (** encoding/json's case-insensitive comparison of a struct field name
      (first argument) with an object key. *)
  equalFold : string -> string -> bool;
  (** JSON number literals. *)
  number : Type;
  (** Go's [float64], with its zero value. *)
  float64 : Type;
  float64_zero : float64;
  (** [strconv.ParseFloat(lit, 64)]; [None] when the literal is out of range. *)
  ParseFloat : number -> option float64;
  (** [fmt.Sprintf("%d", int(x))]. *)
  Sprintf_d_int : float64 -> string;
  (** [url.Parse(s)]: [None] on a parse error, else the [Scheme] field. *)
  url_Parse_Scheme : string -> option string
}.

(** ** strings.ToLower *)

Module Strings.

Definition RuneSelf : N := 128.

Definition isUpperByte (c : ascii) : bool :=
  (65 <=? N_of_ascii c)%N && (N_of_ascii c <=? 90)%N.

(** [c += 'a' - 'A'] on an upper-case byte. *)
Definition lowerByte (c : ascii) : ascii :=
  if isUpperByte c then ascii_of_N (N_of_ascii c + 32) else c.

Fixpoint isASCII (s : string) : bool :=
  match s with
  | EmptyString => true
  | String c r => (N_of_ascii c <? RuneSelf)%N && isASCII r
  end.

Fixpoint hasUpper (s : string) : bool :=
  match s with
  | EmptyString => false
  | String c r => isUpperByte c || hasUpper r
  end.

Fixpoint mapBytes (f : ascii -> ascii) (s : string) : string :=
  match s with
  | EmptyString => EmptyString
  | String c r => String (f c) (mapBytes f r)
  end.

Definition ToLower `{GoLib} (s : string) : string :=
  if isASCII s then
    if hasUpper s then mapBytes lowerByte s else s
  else unicode_ToLower s.

End Strings.

(** ** Descriptors, gauges and metrics (the part of the Prometheus client
    the exporter uses) *)

Record Desc := NewDesc {
  fqName : string;
  help : string;
  variableLabels : list string
}.

(** [prometheus.BuildFQName]. *)
Definition BuildFQName (namespace subsystem name : string) : string :=
  if String.eqb name "" then ""
  else if negb (String.eqb namespace "") && negb (String.eqb subsystem "")
       then namespace ++ "_" ++ subsystem ++ "_" ++ name
  else if negb (String.eqb namespace "") then namespace ++ "_" ++ name
  else if negb (String.eqb subsystem "") then subsystem ++ "_" ++ name
  else name.

Definition nameSpace : string := "kafka_connect".

Definition isConnectorRunning : Desc :=
  NewDesc (BuildFQName nameSpace "connector" "state_running")
          "is the connector running?"
          ["connector"; "state"; "worker"].

Definition areConnectorTasksRunning : Desc :=
  NewDesc (BuildFQName nameSpace "connector" "tasks_state")
          "the state of tasks. 0-failed, 1-running, 2-unassigned, 3-paused"
          ["connector"; "state"; "worker_id"; "id"].

(** A gauge: its descriptor and its current value. The values the exporter
    stores are 0, 1 and a slice length, all integers that [float64] holds
    exactly, so a value is a [Z]. *)
Record Gauge := {
  gauge_desc : Desc;
  gauge_value : Z
}.

Record GaugeOpts := {
  Namespace : string;
  Subsystem : string;
  Name : string;
  Help : string
}.

Definition NewGauge (o : GaugeOpts) : Gauge :=
  {| gauge_desc := NewDesc (BuildFQName (Namespace o) (Subsystem o) (Name o)) (Help o) [];
     gauge_value := 0 |}.

Definition Gauge_Set (g : Gauge) (v : Z) : Gauge :=
  {| gauge_desc := gauge_desc g; gauge_value := v |}.

Record Exporter := {
  URI : string;
  up : Gauge;
  connectorsCount : Gauge
}.

Definition NewExporter (uri : string) : Exporter :=
  {| URI := uri;
     up := NewGauge {| Namespace := nameSpace; Subsystem := ""; Name := "up";
                       Help := "was the last scrape of kafka connect successful?" |};
     connectorsCount :=
       NewGauge {| Namespace := nameSpace; Subsystem := "connectors"; Name := "count";
                   Help := "number of deployed connectors" |} |}.

(** The two gauges are objects owned by the exporter: [ch <- e.up] sends the
    gauge itself, not a copy of its value. *)
Inductive gauge_field := f_up | f_connectorsCount.

Definition get_gauge (f : gauge_field) (e : Exporter) : Gauge :=
  match f with f_up => up e | f_connectorsCount => connectorsCount e end.

Definition set_gauge (f : gauge_field) (v : Z) (e : Exporter) : Exporter :=
  match f with
  | f_up => {| URI := URI e; up := Gauge_Set (up e) v; connectorsCount := connectorsCount e |}
  | f_connectorsCount =>
      {| URI := URI e; up := up e; connectorsCount := Gauge_Set (connectorsCount e) v |}
  end.

Inductive Metric :=
| GaugeOf (f : gauge_field)
| ConstMetric (d : Desc) (v : Z) (labelValues : list string).

(** [prometheus.MustNewConstMetric]. It panics when the number of label
    values differs from the descriptor's labels or a value is not UTF-8; the
    two call sites pass three and four values to descriptors of three and
    four labels, and every value is a string decoded by encoding/json, lower
    cased or printed from an integer. *)
Definition MustNewConstMetric (d : Desc) (v : Z) (labelValues : list string) : Metric :=
  ConstMetric d v labelValues.

(** What the registry reads from a metric taken off the channel. *)
Record Sample := {
  sample_name : string;
  sample_labels : list (string * string);
  sample_value : Z
}.

Definition Write (e : Exporter) (m : Metric) : Sample :=
  match m with
  | GaugeOf f =>
      {| sample_name := fqName (gauge_desc (get_gauge f e));
         sample_labels := [];
         sample_value := gauge_value (get_gauge f e) |}
  | ConstMetric d v lv =>
      {| sample_name := fqName d;
         sample_labels := zip (variableLabels d) lv;
         sample_value := v |}
  end.

(** [Exporter.Describe]: [e.up.Describe(ch)] sends the gauge's descriptor. *)
Definition Gauge_Describe (g : Gauge) : list Desc := [gauge_desc g].

Definition Describe (e : Exporter) : list Desc := Gauge_Describe (up e).

(** ** The decoded shapes and encoding/json *)

Section Decoding.
Context `{L : GoLib}.

Definition connectors := list string.

Record connector := {
  connector_State : string;
  connector_WorkerId : string
}.

Record task := {
  task_State : string;
  task_Id : float64;
  task_WorkerId : string
}.

Record status := {
  status_Name : string;
  status_Connector : connector;
  status_Tasks : list task
}.

(** Zero values, what [var connectorStatus status] holds before decoding. *)
Definition zero_connector : connector :=
  {| connector_State := ""; connector_WorkerId := "" |}.
Definition zero_task : task :=
  {| task_State := ""; task_Id := float64_zero; task_WorkerId := "" |}.
Definition zero_status : status :=
  {| status_Name := ""; status_Connector := zero_connector; status_Tasks := [] |}.

(** A JSON value; an object keeps its members in document order, repeated
    keys included. A string member is the Go string after unquoting. *)
Inductive json :=
| JNull
| JBool (b : bool)
| JNum (n : number)
| JStr (s : string)
| JArr (elems : list json)
| JObj (members : list (string * json)).

(** What [ioutil.ReadAll] hands to [json.Unmarshal]: bytes that are not a
    JSON text, or the value they spell. *)
Inductive payload :=
| NotJSON
| Text (j : json).

(** Decoding into a [string]: [null] leaves the target as it is, a JSON
    string is stored, anything else is an [UnmarshalTypeError]. *)
Definition decode_string (j : json) (cur : string) : option string :=
  match j with
  | JNull => Some cur
  | JStr s => Some s
  | _ => None
  end.

Definition decode_float64 (j : json) (cur : float64) : option float64 :=
  match j with
  | JNull => Some cur
  | JNum n => ParseFloat n
  | _ => None
  end.

(** The field an object key selects: an exact match anywhere wins, else the
    first field equal up to case folding; no field when none matches. *)
Fixpoint find_field {F : Type} (fields : list (string * F)) (key : string)
         (f : option F) : option F :=
  match fields with
  | [] => f
  | (nm, ff) :: rest =>
      if String.eqb nm key then Some ff
      else find_field rest key
             (match f with
              | None => if equalFold nm key then Some ff else None
              | Some _ => f
              end)
  end.

(** Decoding the members of an object one after the other into a struct.
    encoding/json records the first type error, goes on and returns the
    error at the end; the exporter drops the struct on any error, so the
    result here is [None] as soon as a member fails. *)
Fixpoint decode_members {S : Type} (step : S -> string * json -> option S)
         (ms : list (string * json)) (s : S) : option S :=
  match ms with
  | [] => Some s
  | kv :: rest =>
      match step s kv with
      | Some s' => decode_members step rest s'
      | None => None
      end
  end.

(** Decoding into a struct: [null] has no effect, an object is decoded
    member by member, any other value is a type error. *)
Definition decode_struct {S : Type} (step : S -> string * json -> option S)
           (j : json) (cur : S) : option S :=
  match j with
  | JNull => Some cur
  | JObj ms => decode_members step ms cur
  | _ => None
  end.

Fixpoint decode_elems {A : Type} (dec : json -> option A) (l : list json)
  : option (list A) :=
  match l with
  | [] => Some []
  | j :: rest =>
      match dec j, decode_elems dec rest with
      | Some a, Some r => Some (a :: r)
      | _, _ => None
      end
  end.

(** Decoding into a slice: [null] sets it to nil, an array resets the
    length to zero and appends each element decoded into a zero element, as
    the package documents it. Whether a value is accepted never depends on
    what the target held ([decode_members_fits] below), so a key repeated in
    one object changes no outcome of a fetch. *)
Definition decode_slice {A : Type} (dec : json -> option A) (j : json)
  : option (list A) :=
  match j with
  | JNull => Some []
  | JArr l => decode_elems dec l
  | _ => None
  end.

Inductive connector_field := cf_state | cf_worker_id.
Inductive task_field := tf_state | tf_id | tf_worker_id.
Inductive status_field := sf_name | sf_connector | sf_tasks.

(** The [json:"..."] tags. *)
Definition connector_tags : list (string * connector_field) :=
  [("state", cf_state); ("worker_id", cf_worker_id)].
Definition task_tags : list (string * task_field) :=
  [("state", tf_state); ("id", tf_id); ("worker_id", tf_worker_id)].
Definition status_tags : list (string * status_field) :=
  [("name", sf_name); ("connector", sf_connector); ("tasks", sf_tasks)].

Definition connector_member (c : connector) (kv : string * json) : option connector :=
  match find_field connector_tags (fst kv) None with
  | Some cf_state =>
      s ← decode_string (snd kv) (connector_State c);
      Some {| connector_State := s; connector_WorkerId := connector_WorkerId c |}
  | Some cf_worker_id =>
      s ← decode_string (snd kv) (connector_WorkerId c);
      Some {| connector_State := connector_State c; connector_WorkerId := s |}
  | None => Some c
  end.

Definition task_member (t : task) (kv : string * json) : option task :=
  match find_field task_tags (fst kv) None with
  | Some tf_state =>
      s ← decode_string (snd kv) (task_State t);
      Some {| task_State := s; task_Id := task_Id t; task_WorkerId := task_WorkerId t |}
  | Some tf_id =>
      x ← decode_float64 (snd kv) (task_Id t);
      Some {| task_State := task_State t; task_Id := x; task_WorkerId := task_WorkerId t |}
  | Some tf_worker_id =>
      s ← decode_string (snd kv) (task_WorkerId t);
      Some {| task_State := task_State t; task_Id := task_Id t; task_WorkerId := s |}
  | None => Some t
  end.

Definition decode_task (j : json) : option task :=
  decode_struct task_member j zero_task.

Definition status_member (st : status) (kv : string * json) : option status :=
  match find_field status_tags (fst kv) None with
  | Some sf_name =>
      s ← decode_string (snd kv) (status_Name st);
      Some {| status_Name := s; status_Connector := status_Connector st;
              status_Tasks := status_Tasks st |}
  | Some sf_connector =>
      c ← decode_struct connector_member (snd kv) (status_Connector st);
      Some {| status_Name := status_Name st; status_Connector := c;
              status_Tasks := status_Tasks st |}
  | Some sf_tasks =>
      ts ← decode_slice decode_task (snd kv);
      Some {| status_Name := status_Name st; status_Connector := status_Connector st;
              status_Tasks := ts |}
  | None => Some st
  end.

(** [json.Unmarshal(output, &connectorsList)] with [connectorsList] nil. *)
Definition Unmarshal_connectors (p : payload) : option connectors :=
  match p with
  | NotJSON => None
  | Text j => decode_slice (fun x => decode_string x "") j
  end.

(** [json.Unmarshal(connectorStatusOutput, &connectorStatus)] with
    [connectorStatus] the zero [status]. *)
Definition Unmarshal_status (p : payload) : option status :=
  match p with
  | NotJSON => None
  | Text j => decode_struct status_member j zero_status
  end.

End Decoding.

(** ** The collection cycle *)

Section Collector.
Context `{L : GoLib}.

(** An HTTP response body: what [ioutil.ReadAll] returns on it ([None] for
    an error) and whether [Close] returns an error. *)
Record Body := {
  ReadAll_result : option payload;
  Close_fails : bool
}.

(** [client.Get(url)] during one cycle: [None] for an error (the 3 second
    timeout included), else the response. The status code is never looked
    at by the exporter, so it is not part of the response. *)
Definition upstream := string -> option Body.

(** Responses are numbered in the order they are obtained. *)
Definition handle := nat.

Inductive log_line :=
| CantScrape            (* "Can't scrape kafka connect: %v" *)
| CantCloseConnect      (* "Can't close connection to kafka connect: %v" *)
| CantGetStatus         (* "Can't get /status for: %v" *)
| CantReadBody          (* "Can't read Body for: %v" *)
| CantDecode            (* "Can't decode response for: %v" *)
| CantCloseConnector.   (* "Can't close connection to connector: %v" *)

Inductive event :=
| EvSet (f : gauge_field) (v : Z)
| EvSend (m : Metric)
| EvLog (l : log_line)
| EvGet (url : string) (h : option handle)
| EvReadAll (h : handle) (ok : bool)
| EvClose (h : handle) (ok : bool).

(** What a cycle reads and writes besides the trace: the exporter with its
    gauges, and the number of responses obtained so far. *)
Record store := {
  exporter : Exporter;
  responses : nat
}.

(** A command runs on a store and yields its result, the new store and the
    events it caused, in order. *)
Definition Cmd (A : Type) : Type := store -> A * store * list event.

#[export] Instance Cmd_ret : MRet Cmd := fun A a s => (a, s, []).
#[export] Instance Cmd_bind : MBind Cmd :=
  fun A B f m s =>
    let '(a, s1, t1) := m s in
    let '(b, s2, t2) := f a s1 in
    (b, s2, (t1 ++ t2)%list).

Definition emit (ev : event) : Cmd unit := fun s => (tt, s, [ev]).

Definition Set_ (f : gauge_field) (v : Z) : Cmd unit :=
  fun s => (tt, {| exporter := set_gauge f v (exporter s); responses := responses s |},
            [EvSet f v]).

Definition send (m : Metric) : Cmd unit := emit (EvSend m).
Definition log (l : log_line) : Cmd unit := emit (EvLog l).

Definition get_URI : Cmd string := fun s => (URI (exporter s), s, []).

Definition client_Get (u : upstream) (url : string) : Cmd (option (handle * Body)) :=
  fun s =>
    match u url with
    | None => (None, s, [EvGet url None])
    | Some b =>
        (Some (responses s, b),
         {| exporter := exporter s; responses := S (responses s) |},
         [EvGet url (Some (responses s))])
    end.

Definition ReadAll (r : handle * Body) : Cmd (option payload) :=
  emit (EvReadAll (fst r) (bool_decide (is_Some (ReadAll_result (snd r))))) ;;
  mret (ReadAll_result (snd r)).

(** [Body.Close()]; the result is [true] when [err != nil]. *)
Definition Body_Close (r : handle * Body) : Cmd bool :=
  emit (EvClose (fst r) (negb (Close_fails (snd r)))) ;;
  mret (Close_fails (snd r)).

(** Lines 131-134. *)
Definition isRunning (connectorState : string) : Z :=
  if String.eqb (Strings.ToLower connectorState) "running" then 1 else 0.

(** The switch of lines 143-154. *)
Definition state (connectorTaskState : string) : Z :=
  let taskState := Strings.ToLower connectorTaskState in
  if String.eqb taskState "running" then 1
  else if String.eqb taskState "unassigned" then 2
  else if String.eqb taskState "paused" then 3
  else 0.

(** [for _, connectorTask := range connectorStatus.Tasks]. *)
Fixpoint range_Tasks (connectorStatus : status) (tasks : list task) : Cmd unit :=
  match tasks with
  | [] => mret tt
  | connectorTask :: rest =>
      send (MustNewConstMetric areConnectorTasksRunning
              (state (task_State connectorTask))
              [status_Name connectorStatus;
               Strings.ToLower (task_State connectorTask);
               task_WorkerId connectorTask;
               Sprintf_d_int (task_Id connectorTask)]) ;;
      range_Tasks connectorStatus rest
  end.

(** One iteration of the loop over the connector names, lines 113-165. Each
    [continue] ends the iteration where it stands. *)
Definition collect_connector (u : upstream) (uri connector : string) : Cmd unit :=
  connectorStatusResponse ← client_Get u (uri ++ "/connectors/" ++ connector ++ "/status");
  match connectorStatusResponse with
  | None => log CantGetStatus
  | Some resp =>
      connectorStatusOutput ← ReadAll resp;
      match connectorStatusOutput with
      | None => log CantReadBody
      | Some output =>
          match Unmarshal_status output with
          | None => log CantDecode
          | Some connectorStatus =>
              send (MustNewConstMetric isConnectorRunning
                      (isRunning (connector_State (status_Connector connectorStatus)))
                      [status_Name connectorStatus;
                       Strings.ToLower (connector_State (status_Connector connectorStatus));
                       connector_WorkerId (status_Connector connectorStatus)]) ;;
              range_Tasks connectorStatus (status_Tasks connectorStatus) ;;
              err ← Body_Close resp;
              if (err : bool) then log CantCloseConnector else mret tt
          end
      end
  end.

(** [for _, connector := range connectorsList]. *)
Fixpoint range_connectorsList (u : upstream) (uri : string) (l : connectors) : Cmd unit :=
  match l with
  | [] => mret tt
  | connector :: rest =>
      collect_connector u uri connector ;;
      range_connectorsList u uri rest
  end.

(** The deferred function of lines 82-89; it runs when [Collect] returns
    after the listing response was obtained. *)
Definition deferred_Close (response : handle * Body) : Cmd unit :=
  err ← Body_Close response;
  if (err : bool) then log CantCloseConnect ;; send (GaugeOf f_up) else mret tt.

(** Lines 91-168, the part of [Collect] that runs with the listing response
    in hand. *)
Definition Collect_listing (u : upstream) (uri : string) (response : handle * Body)
  : Cmd unit :=
  output ← ReadAll response;
  match output with
  | None => log CantScrape ;; send (GaugeOf f_up)
  | Some output =>
      match Unmarshal_connectors output with
      | None => log CantScrape ;; send (GaugeOf f_up)
      | Some connectorsList =>
          Set_ f_up 1 ;;
          Set_ f_connectorsCount (Z.of_nat (length connectorsList)) ;;
          send (GaugeOf f_up) ;;
          send (GaugeOf f_connectorsCount) ;;
          range_connectorsList u uri connectorsList
      end
  end.

Definition Collect (u : upstream) : Cmd unit :=
  Set_ f_up 0 ;;
  uri ← get_URI;
  response ← client_Get u (uri ++ "/connectors");
  match response with
  | None => log CantScrape ;; send (GaugeOf f_up)
  | Some response =>
      Collect_listing u uri response ;;
      deferred_Close response
  end.

(** One cycle: [Collect] run on the exporter as the previous cycle left it,
    with a fresh channel. *)
Definition cycle (u : upstream) (e : Exporter) : Exporter * list event :=
  let '(_, s, t) := Collect u {| exporter := e; responses := 0 |} in
  (exporter s, t).

(** The metrics sent on the channel, in order. *)
Definition sent (t : list event) : list Metric :=
  omap (fun ev => match ev with EvSend m => Some m | _ => None end) t.

(** The samples of a cycle: the registry reads every metric it receives; a
    gauge is read through the exporter's own gauge object, here as the cycle
    leaves it ([gauges_settled_at_send] below: it holds that value from the
    first send on). *)
Definition samples (u : upstream) (e : Exporter) : list Sample :=
  map (Write (fst (cycle u e))) (sent (snd (cycle u e))).

(** Replaying the gauge updates of a trace. *)
Definition replay (e : Exporter) (t : list event) : Exporter :=
  fold_left (fun e ev => match ev with EvSet f v => set_gauge f v e | _ => e end) t e.

(** Responses obtained and never closed. *)
Definition opened (t : list event) : list handle :=
  omap (fun ev => match ev with EvGet _ (Some h) => Some h | _ => None end) t.
Definition closed (t : list event) : list handle :=
  omap (fun ev => match ev with EvClose h _ => Some h | _ => None end) t.
Definition leaked (t : list event) : list handle :=
  filter (fun h => h ∉ closed t) (opened t).

End Collector.

(** ** Startup *)

Section Startup.
Context `{L : GoLib}.

Record flags := {
  showVersion : bool;
  listenAddress : string;
  metricsPath : string;
  scrapeURI : string
}.

Definition supportedSchema : gmap string bool :=
  {[ "http" := true; "https" := true ]}.

(** How [main] ends: [os.Exit(code)], or the exporter registered and
    [http.ListenAndServe] entered. *)
Inductive outcome :=
| Exit (code : Z)
| Serving (addr path : string) (e : Exporter).

Definition main (fl : flags) : outcome :=
  if showVersion fl then Exit 2
  else
    match url_Parse_Scheme (scrapeURI fl) with
    | None => Exit 1
    | Some scheme =>
        if negb (default false (supportedSchema !! scheme)) then Exit 1
        else Serving (listenAddress fl) (metricsPath fl) (NewExporter (scrapeURI fl))
    end.

End Startup.

(** ** The outcome of a cycle, read off the upstream

    Pure readings of what the upstream answers, against which the runs of
    [Collect] are stated. *)

Section Reading.
Context `{L : GoLib}.

Definition listing_url (uri : string) : string := uri ++ "/connectors".
Definition status_url (uri connector : string) : string :=
  uri ++ "/connectors/" ++ connector ++ "/status".

(** The names the listing step ends with; [None] when the GET, the read or
    the decoding fails. *)
Definition fetch_listing (u : upstream) (uri : string) : option connectors :=
  resp ← u (listing_url uri); p ← ReadAll_result resp; Unmarshal_connectors p.

(** The status one connector's fetch ends with; [None] when the GET, the
    read or the decoding fails. *)
Definition fetch_status (u : upstream) (uri connector : string) : option status :=
  resp ← u (status_url uri connector); p ← ReadAll_result resp; Unmarshal_status p.

Definition running_metric (st : status) : Metric :=
  ConstMetric isConnectorRunning
    (isRunning (connector_State (status_Connector st)))
    [status_Name st;
     Strings.ToLower (connector_State (status_Connector st));
     connector_WorkerId (status_Connector st)].

Definition task_metric (st : status) (t : task) : Metric :=
  ConstMetric areConnectorTasksRunning
    (state (task_State t))
    [status_Name st; Strings.ToLower (task_State t); task_WorkerId t;
     Sprintf_d_int (task_Id t)].

Definition status_metrics (st : status) : list Metric :=
  running_metric st :: map (task_metric st) (status_Tasks st).

Definition connector_metrics (u : upstream) (uri connector : string) : list Metric :=
  match fetch_status u uri connector with
  | Some st => status_metrics st
  | None => []
  end.

(** The total number of tasks of the connectors whose status is fetched. *)
Definition total_tasks (u : upstream) (uri : string) (l : connectors) : nat :=
  sum_list (map (fun c => match fetch_status u uri c with
                          | Some st => length (status_Tasks st)
                          | None => O
                          end) l).

(** What the deferred close adds to the channel. *)
Definition resent (resp : Body) : list Metric :=
  if Close_fails resp then [GaugeOf f_up] else [].

Definition is_set (ev : event) : bool :=
  match ev with EvSet _ _ => true | _ => false end.
Definition is_send (ev : event) : bool :=
  match ev with EvSend _ => true | _ => false end.

Definition is_up_metric (m : Metric) : bool :=
  match m with
  | GaugeOf f_up => true
  | _ => false
  end.

(** The two gauge samples, for a value read from the gauge. *)
Definition up_sample (e : Exporter) (v : Z) : Sample :=
  {| sample_name := fqName (gauge_desc (up e)); sample_labels := []; sample_value := v |}.
Definition count_sample (e : Exporter) (v : Z) : Sample :=
  {| sample_name := fqName (gauge_desc (connectorsCount e)); sample_labels := [];
     sample_value := v |}.

(** The samples of one connector. *)
Definition connector_samples (u : upstream) (e : Exporter) (c : string) : list Sample :=
  map (Write e) (connector_metrics u (URI e) c).

Definition is_running_metric (m : Metric) : bool :=
  match m with
  | ConstMetric d _ _ => String.eqb (fqName d) (fqName isConnectorRunning)
  | GaugeOf _ => false
  end.

(** *** Which status bodies decode

    [fits_status] reads a JSON value against the [status] struct the way
    encoding/json assigns it: [null] fits everything, a member whose key
    selects no field is passed over, a member that selects a field must
    carry a value of the field's kind. *)

Definition fits_string (j : json) : bool :=
  match j with
  | JNull | JStr _ => true
  | _ => false
  end.

Definition fits_float64 (j : json) : bool :=
  match j with
  | JNull => true
  | JNum n => bool_decide (is_Some (ParseFloat n))
  | _ => false
  end.

Definition fits_struct {F : Type} (tags : list (string * F)) (fits : F -> json -> bool)
           (j : json) : bool :=
  match j with
  | JNull => true
  | JObj ms =>
      forallb (fun kv => match find_field tags (fst kv) None with
                         | Some f => fits f (snd kv)
                         | None => true
                         end) ms
  | _ => false
  end.

Definition fits_slice (fits : json -> bool) (j : json) : bool :=
  match j with
  | JNull => true
  | JArr l => forallb fits l
  | _ => false
  end.

Definition fits_connector : json -> bool :=
  fits_struct connector_tags (fun _ => fits_string).

Definition fits_task : json -> bool :=
  fits_struct task_tags
    (fun f => match f with tf_id => fits_float64 | _ => fits_string end).

Definition fits_status : json -> bool :=
  fits_struct status_tags
    (fun f => match f with
              | sf_name => fits_string
              | sf_connector => fits_connector
              | sf_tasks => fits_slice fits_task
              end).

Definition decodable (p : payload) : bool :=
  match p with
  | NotJSON => false
  | Text j => fits_status j
  end.

(** The shape of the specification's section 6, read to the letter: an
    object with exactly the members [name], [connector] and [tasks], the
    connector an object with exactly [state] and [worker_id], the tasks an
    array of objects with exactly [state], [id] and [worker_id]. *)

Definition is_string (j : json) : bool :=
  match j with JStr _ => true | _ => false end.
Definition is_number (j : json) : bool :=
  match j with JNum _ => true | _ => false end.
Definition is_array_of (shape : json -> bool) (j : json) : bool :=
  match j with JArr l => forallb shape l | _ => false end.

Definition exact_object (fields : list (string * (json -> bool))) (j : json) : bool :=
  match j with
  | JObj ms =>
      forallb (fun kv => existsb (fun f => String.eqb (fst f) (fst kv) && snd f (snd kv))
                                 fields) ms
      && forallb (fun f => existsb (fun kv => String.eqb (fst f) (fst kv)) ms) fields
  | _ => false
  end.

Definition spec_connector_shape : json -> bool :=
  exact_object [("state", is_string); ("worker_id", is_string)].
Definition spec_task_shape : json -> bool :=
  exact_object [("state", is_string); ("id", is_number); ("worker_id", is_string)].
Definition spec_status_shape : json -> bool :=
  exact_object [("name", is_string); ("connector", spec_connector_shape);
                ("tasks", is_array_of spec_task_shape)].

(** *** Further readings of a trace and of the upstream *)

(** The URLs requested, in order. *)
Definition requests (t : list event) : list string :=
  omap (fun ev => match ev with EvGet url _ => Some url | _ => None end) t.

(** The log lines, in order. *)
Definition logs (t : list event) : list log_line :=
  omap (fun ev => match ev with EvLog l => Some l | _ => None end) t.

(** The three lines that report a skipped connector. *)
Definition is_skip_log (l : log_line) : bool :=
  match l with
  | CantGetStatus | CantReadBody | CantDecode => true
  | _ => false
  end.

(** Whether the GET of a connector's status answers, and whether the whole
    fetch ends with a decoded status. *)
Definition answered (u : upstream) (uri c : string) : bool :=
  match u (status_url uri c) with Some _ => true | None => false end.
Definition fetched (u : upstream) (uri c : string) : bool :=
  match fetch_status u uri c with Some _ => true | None => false end.

(** A status and a list of names written as the JSON documents the
    Kafka Connect REST interface answers with; [nums] are the number
    literals of the task ids. *)
Definition task_json (t : task) (n : number) : json :=
  JObj [("state", JStr (task_State t)); ("id", JNum n);
        ("worker_id", JStr (task_WorkerId t))].

Definition status_json (st : status) (nums : list number) : json :=
  JObj [("name", JStr (status_Name st));
        ("connector",
         JObj [("state", JStr (connector_State (status_Connector st)));
               ("worker_id", JStr (connector_WorkerId (status_Connector st)))]);
        ("tasks", JArr (zip_with task_json (status_Tasks st) nums))].

Definition connectors_json (l : connectors) : json := JArr (map JStr l).

End Reading.

(** ** A concrete library instance and concrete upstreams

    The instance covers ASCII text and integer number literals: keys are
    compared up to ASCII case, a number literal is an integer that
    [float64] holds as it is, and the scheme of a URI is what stands before
    its first colon. It is used to run the model on concrete inputs. *)

Module Concrete.

Definition ascii_equalFold (field key : string) : bool :=
  String.eqb (Strings.mapBytes Strings.lowerByte field)
             (Strings.mapBytes Strings.lowerByte key).

(** [getScheme] of net/url followed by lower casing: letters, and after the
    first byte digits, [+], [-] and [.], up to a colon; no colon or another
    byte first means no scheme; a colon in front is an error. *)
Fixpoint getScheme (s : string) (i : nat) (acc : string) : option string :=
  match s with
  | EmptyString => Some ""
  | String c r =>
      let n := N_of_ascii c in
      if ((97 <=? n) && (n <=? 122) || (65 <=? n) && (n <=? 90))%N
      then getScheme r (S i) (acc ++ String (Strings.lowerByte c) EmptyString)
      else if ((48 <=? n) && (n <=? 57) || (n =? 43) || (n =? 45) || (n =? 46))%N
      then match i with
           | O => Some ""
           | S _ => getScheme r (S i) (acc ++ String c EmptyString)
           end
      else if (n =? 58)%N
      then match i with O => None | S _ => Some acc end
      else Some ""
  end.

Definition lib : GoLib := {|
  unicode_ToLower := fun s => s;
  equalFold := ascii_equalFold;
  number := Z;
  float64 := Z;
  float64_zero := 0;
  ParseFloat := fun n => Some n;
  Sprintf_d_int := fun x => pretty x;
  url_Parse_Scheme := fun s => getScheme s 0 ""
|}.

#[local] Existing Instance lib.

Definition body_of (p : payload) (close_fails : bool) : Body :=
  {| ReadAll_result := Some p; Close_fails := close_fails |}.

Definition base : string := "http://127.0.0.1:8080".

(** The scenario of the README: one connector with one running task. *)
Definition changesets_status : json :=
  JObj [("name", JStr "test-changesets");
        ("connector", JObj [("state", JStr "RUNNING");
                            ("worker_id", JStr "kafka-connect:8083")]);
        ("tasks", JArr [JObj [("state", JStr "running"); ("id", JNum 0);
                              ("worker_id", JStr "kafka-connect:8083")]])].

(** What [changesets_status] decodes to. *)
Definition changesets_decoded : status :=
  {| status_Name := "test-changesets";
     status_Connector :=
       {| connector_State := "RUNNING"; connector_WorkerId := "kafka-connect:8083" |};
     status_Tasks :=
       [{| task_State := "running"; task_Id := float64_zero;
           task_WorkerId := "kafka-connect:8083" |}] |}.

Definition readme_upstream : upstream := fun url =>
  if String.eqb url (base ++ "/connectors")
  then Some (body_of (Text (JArr [JStr "test-changesets"])) false)
  else if String.eqb url (base ++ "/connectors/test-changesets/status")
  then Some (body_of (Text changesets_status) false)
  else None.

(** The listing cannot be decoded and closing its body fails. *)
Definition bad_listing_close_fails : upstream := fun url =>
  if String.eqb url (base ++ "/connectors")
  then Some (body_of NotJSON true)
  else None.

(** The listing is the empty array and closing its body fails. *)
Definition empty_listing_close_fails : upstream := fun url =>
  if String.eqb url (base ++ "/connectors")
  then Some (body_of (Text (JArr [])) true)
  else None.

(** One connector whose status body is the empty object. *)
Definition empty_object_status : upstream := fun url =>
  if String.eqb url (base ++ "/connectors")
  then Some (body_of (Text (JArr [JStr "a"])) false)
  else if String.eqb url (base ++ "/connectors/a/status")
  then Some (body_of (Text (JObj [])) false)
  else None.

(** One connector whose status body is not JSON. *)
Definition undecodable_status : upstream := fun url =>
  if String.eqb url (base ++ "/connectors")
  then Some (body_of (Text (JArr [JStr "a"])) false)
  else if String.eqb url (base ++ "/connectors/a/status")
  then Some (body_of NotJSON false)
  else None.

(** Two connectors: the first answers with the empty object, the status of
    the second cannot be fetched. *)
Definition second_unreachable : upstream := fun url =>
  if String.eqb url (base ++ "/connectors")
  then Some (body_of (Text (JArr [JStr "a"; JStr "b"])) false)
  else if String.eqb url (base ++ "/connectors/a/status")
  then Some (body_of (Text (JObj [])) false)
  else None.

Definition ftp_flags : flags :=
  {| showVersion := false; listenAddress := ":8080"; metricsPath := "/metrics";
     scrapeURI := "ftp://127.0.0.1:8080" |}.

(** Nothing answers. *)
Definition unreachable : upstream := fun _ => None.


End Concrete.

(** * Properties *)

(** ** Running the commands *)

Section Runs.
Context `{L : GoLib}.

Lemma sent_app (t1 t2 : list event) : sent (t1 ++ t2)%list = (sent t1 ++ sent t2)%list.
Proof. apply omap_app. Qed.

Lemma sent_sends (ms : list Metric) : sent (map EvSend ms) = ms.
Proof. induction ms as [|m ms IH]; simpl; [reflexivity | f_equal; exact IH]. Qed.

(** The loop over the tasks sends one metric per task and nothing else. *)
Lemma range_Tasks_run (st : status) (ts : list task) (s : store) :
  range_Tasks st ts s = (tt, s, map (fun t => EvSend (task_metric st t)) ts).
Proof.
  induction ts as [|t ts IH]; simpl; [reflexivity|].
  unfold mbind, Cmd_bind, send, emit. rewrite IH. reflexivity.
Qed.

(** One iteration never touches the gauges. *)
Lemma collect_connector_exporter (u : upstream) (uri c : string) (s : store) :
  exporter (snd (fst (collect_connector u uri c s))) = exporter s.
Proof.
  unfold collect_connector, mbind, Cmd_bind, client_Get.
  destruct (u _) as [resp|]; simpl; [|reflexivity].
  destruct (ReadAll_result resp) as [p|]; simpl; [|reflexivity].
  destruct (Unmarshal_status p) as [st|]; simpl; [|reflexivity].
  rewrite range_Tasks_run. simpl.
  destruct (Close_fails resp); reflexivity.
Qed.

(** What one iteration sends is read off the upstream: the metrics of the
    decoded status, or nothing when the fetch fails. *)
Lemma collect_connector_sent (u : upstream) (uri c : string) (s : store) :
  sent (snd (collect_connector u uri c s)) = connector_metrics u uri c.
Proof.
  unfold connector_metrics, fetch_status, status_url.
  unfold collect_connector, mbind, Cmd_bind, client_Get.
  destruct (u _) as [resp|]; simpl; [|reflexivity].
  destruct (ReadAll_result resp) as [p|]; simpl; [|reflexivity].
  destruct (Unmarshal_status p) as [st|]; simpl; [|reflexivity].
  rewrite range_Tasks_run. simpl.
  unfold status_metrics, running_metric, MustNewConstMetric.
  destruct (Close_fails resp); simpl;
    rewrite sent_app, <- (map_map (task_metric st) EvSend), sent_sends;
    simpl; rewrite app_nil_r; reflexivity.
Qed.

Lemma range_connectorsList_exporter (u : upstream) (uri : string) (l : connectors)
      (s : store) :
  exporter (snd (fst (range_connectorsList u uri l s))) = exporter s.
Proof.
  revert s. induction l as [|c l IH]; intros s; simpl; [reflexivity|].
  unfold mbind, Cmd_bind.
  pose proof (collect_connector_exporter u uri c s) as Hc.
  destruct (collect_connector u uri c s) as [[[] s1] t1]. simpl in Hc.
  specialize (IH s1).
  destruct (range_connectorsList u uri l s1) as [[[] s2] t2]. simpl in *.
  congruence.
Qed.

Lemma range_connectorsList_sent (u : upstream) (uri : string) (l : connectors)
      (s : store) :
  sent (snd (range_connectorsList u uri l s)) = flat_map (connector_metrics u uri) l.
Proof.
  revert s. induction l as [|c l IH]; intros s; simpl; [reflexivity|].
  unfold mbind, Cmd_bind.
  pose proof (collect_connector_sent u uri c s) as Hc.
  destruct (collect_connector u uri c s) as [[[] s1] t1]. simpl in Hc.
  specialize (IH s1).
  destruct (range_connectorsList u uri l s1) as [[[] s2] t2]. simpl in *.
  rewrite sent_app. congruence.
Qed.

(** The channel of a whole cycle. *)
Lemma cycle_sent (u : upstream) (e : Exporter) :
  sent (snd (cycle u e)) =
  match u (listing_url (URI e)) with
  | None => [GaugeOf f_up]
  | Some resp =>
      (match fetch_listing u (URI e) with
       | None => [GaugeOf f_up]
       | Some l =>
           GaugeOf f_up :: GaugeOf f_connectorsCount
             :: flat_map (connector_metrics u (URI e)) l
       end ++ resent resp)%list
  end.
Proof.
  unfold cycle, Collect, fetch_listing, listing_url, resent.
  unfold Collect_listing, deferred_Close, Body_Close, ReadAll, mbind, Cmd_bind,
    Set_, get_URI, client_Get. simpl.
  destruct (u _) as [resp|]; simpl; [|reflexivity].
  destruct (ReadAll_result resp) as [p|]; simpl;
    [|destruct (Close_fails resp); reflexivity].
  destruct (Unmarshal_connectors p) as [l|]; simpl;
    [|destruct (Close_fails resp); reflexivity].
  match goal with
  | |- context [range_connectorsList u ?uri l ?s] =>
      pose proof (range_connectorsList_sent u uri l s) as Hl;
      destruct (range_connectorsList u uri l s) as [[[] s2] t2]
  end.
  simpl in *. f_equal. f_equal.
  destruct (Close_fails resp); simpl; rewrite sent_app, Hl; simpl; auto using app_nil_r.
Qed.

(** The gauges at the end of a cycle. *)
Lemma cycle_exporter (u : upstream) (e : Exporter) :
  fst (cycle u e) =
  match fetch_listing u (URI e) with
  | None => set_gauge f_up 0 e
  | Some l =>
      set_gauge f_connectorsCount (Z.of_nat (length l))
        (set_gauge f_up 1 (set_gauge f_up 0 e))
  end.
Proof.
  unfold cycle, Collect, fetch_listing, listing_url.
  unfold Collect_listing, deferred_Close, Body_Close, ReadAll, mbind, Cmd_bind,
    Set_, get_URI, client_Get. simpl.
  destruct (u _) as [resp|]; simpl; [|reflexivity].
  destruct (ReadAll_result resp) as [p|]; simpl;
    [|destruct (Close_fails resp); reflexivity].
  destruct (Unmarshal_connectors p) as [l|]; simpl;
    [|destruct (Close_fails resp); reflexivity].
  match goal with
  | |- context [range_connectorsList u ?uri l ?s] =>
      pose proof (range_connectorsList_exporter u uri l s) as Hl;
      destruct (range_connectorsList u uri l s) as [[[] s2] t2]
  end.
  simpl in *. destruct (Close_fails resp); simpl; exact Hl.
Qed.

Lemma cycle_URI (u : upstream) (e : Exporter) : URI (fst (cycle u e)) = URI e.
Proof.
  rewrite cycle_exporter. destruct (fetch_listing u (URI e)); reflexivity.
Qed.

(** A constant metric reads the same whatever the gauges hold. *)
Lemma Write_connector_metrics (u : upstream) (uri c : string) (e e' : Exporter) :
  map (Write e) (connector_metrics u uri c) = map (Write e') (connector_metrics u uri c).
Proof.
  unfold connector_metrics. destruct (fetch_status u uri c) as [st|]; [|reflexivity].
  unfold status_metrics. simpl. f_equal.
  induction (status_Tasks st) as [|t ts IH]; simpl; [reflexivity | f_equal; exact IH].
Qed.

Lemma Write_flat_map (u : upstream) (uri : string) (l : connectors) (e e' : Exporter) :
  map (Write e) (flat_map (connector_metrics u uri) l)
  = flat_map (fun c => map (Write e') (connector_metrics u uri c)) l.
Proof.
  induction l as [|c l IH]; simpl; [reflexivity|].
  rewrite map_app, IH, (Write_connector_metrics u uri c e e'). reflexivity.
Qed.

(** The samples of a whole cycle. *)
Lemma samples_spec (u : upstream) (e : Exporter) :
  samples u e =
  match u (listing_url (URI e)) with
  | None => [up_sample e 0]
  | Some resp =>
      match fetch_listing u (URI e) with
      | None => up_sample e 0 :: map (fun _ => up_sample e 0) (resent resp)
      | Some l =>
          up_sample e 1 :: count_sample e (Z.of_nat (length l))
            :: (flat_map (connector_samples u e) l
                ++ map (fun _ => up_sample e 1) (resent resp))%list
      end
  end.
Proof.
  unfold samples. rewrite cycle_sent, cycle_exporter.
  destruct (u (listing_url (URI e))) as [resp|] eqn:Hu.
  - destruct (fetch_listing u (URI e)) as [l|]; simpl.
    + f_equal. f_equal. rewrite map_app. f_equal.
      * apply Write_flat_map.
      * unfold resent. destruct (Close_fails resp); reflexivity.
    + f_equal. unfold resent. destruct (Close_fails resp); reflexivity.
  - unfold fetch_listing. rewrite Hu. reflexivity.
Qed.

End Runs.

(** ** The state mappings *)

Section StateCodes.
Context `{L : GoLib}.

Lemma state_cases (s : string) :
  (Strings.ToLower s = "running" /\ state s = 1)
  \/ (Strings.ToLower s = "unassigned" /\ state s = 2)
  \/ (Strings.ToLower s = "paused" /\ state s = 3)
  \/ (Strings.ToLower s <> "running" /\ Strings.ToLower s <> "unassigned"
      /\ Strings.ToLower s <> "paused" /\ state s = 0).
Proof.
  unfold state.
  destruct (String.eqb_spec (Strings.ToLower s) "running") as [E1|N1]; [auto|].
  destruct (String.eqb_spec (Strings.ToLower s) "unassigned") as [E2|N2]; [auto|].
  destruct (String.eqb_spec (Strings.ToLower s) "paused") as [E3|N3]; [auto|].
  do 3 right. auto.
Qed.

(** Every metric on the channel of a cycle is one of the two gauges, a
    connector metric or a task metric of a decoded status. *)
Lemma cycle_sent_inv (u : upstream) (e : Exporter) (m : Metric) :
  In m (sent (snd (cycle u e))) ->
  m = GaugeOf f_up \/ m = GaugeOf f_connectorsCount
  \/ exists st, m = running_metric st \/ exists t, In t (status_Tasks st) /\ m = task_metric st t.
Proof.
  rewrite cycle_sent.
  assert (Hres : forall resp, In m (resent resp) -> m = GaugeOf f_up).
  { intros resp. unfold resent. destruct (Close_fails resp); simpl; intuition. }
  destruct (u (listing_url (URI e))) as [resp|]; [|simpl; intuition].
  rewrite in_app_iff. intros [Hm|Hm]; [|left; eauto].
  destruct (fetch_listing u (URI e)) as [l|]; [|simpl in Hm; intuition].
  destruct Hm as [Hm|[Hm|Hm]]; [auto | auto |].
  apply in_flat_map in Hm. destruct Hm as (c & _ & Hm).
  unfold connector_metrics in Hm.
  destruct (fetch_status u (URI e) c) as [st|]; [|destruct Hm].
  do 2 right. exists st. destruct Hm as [Hm|Hm]; [left; auto|].
  apply in_map_iff in Hm. destruct Hm as (t & Ht & Hin). right. eauto.
Qed.

(** C4: the task state code is a total function of the lower-cased state
    string: 1 for "running", 2 for "unassigned", 3 for "paused" and 0 for
    every other string, "failed" and the empty string included; strings
    that lower-case alike get the same code; and every task metric sent in
    a cycle carries the code of its task's state, next to the lower-cased
    state as its label. *)
Theorem task_state_code_total_case_insensitive :
  (forall s, Strings.ToLower s = "running" -> state s = 1)
  /\ (forall s, Strings.ToLower s = "unassigned" -> state s = 2)
  /\ (forall s, Strings.ToLower s = "paused" -> state s = 3)
  /\ (forall s, Strings.ToLower s <> "running" -> Strings.ToLower s <> "unassigned" ->
                Strings.ToLower s <> "paused" -> state s = 0)
  /\ (forall s s', Strings.ToLower s = Strings.ToLower s' -> state s = state s')
  /\ (state "Running" = 1 /\ state "RUNNING" = 1 /\ state "running" = 1
      /\ state "Unassigned" = 2 /\ state "PAUSED" = 3
      /\ state "failed" = 0 /\ state "" = 0 /\ state "foo" = 0)
  /\ (forall u e d v lv,
        In (ConstMetric d v lv) (sent (snd (cycle u e))) ->
        d = areConnectorTasksRunning ->
        exists st t, In t (status_Tasks st)
                     /\ v = state (task_State t)
                     /\ lv = [status_Name st; Strings.ToLower (task_State t);
                              task_WorkerId t; Sprintf_d_int (task_Id t)]).
Proof.
  repeat split; try reflexivity.
  - intros s H. destruct (state_cases s) as [[? ?]|[[? ?]|[[? ?]|(? & ? & ? & ?)]]]; congruence.
  - intros s H. destruct (state_cases s) as [[? ?]|[[? ?]|[[? ?]|(? & ? & ? & ?)]]]; congruence.
  - intros s H. destruct (state_cases s) as [[? ?]|[[? ?]|[[? ?]|(? & ? & ? & ?)]]]; congruence.
  - intros s H1 H2 H3.
    destruct (state_cases s) as [[? ?]|[[? ?]|[[? ?]|(? & ? & ? & ?)]]]; congruence.
  - intros s s' H. unfold state. rewrite H. reflexivity.
  - intros u e d v lv Hin Hd. apply cycle_sent_inv in Hin.
    destruct Hin as [Hin|[Hin|(st & [Hin|(t & Ht & Hin)])]]; try discriminate.
    + unfold running_metric in Hin. inversion Hin; subst. discriminate.
    + unfold task_metric in Hin. inversion Hin; subst. eauto.
Qed.

(** C5: a decoded status puts exactly one connector-running metric on the
    channel; its value is 1 when the lower-cased connector state is
    "running" and 0 otherwise (the empty string included), and its labels
    are the decoded name, the lower-cased state and the worker id. *)
Theorem connector_running_sample (u : upstream) (uri c : string) (s : store)
        (resp : Body) (p : payload) (st : status) (e : Exporter) :
  u (uri ++ "/connectors/" ++ c ++ "/status") = Some resp ->
  ReadAll_result resp = Some p ->
  Unmarshal_status p = Some st ->
  List.filter is_running_metric (sent (snd (collect_connector u uri c s)))
  = [running_metric st]
  /\ Write e (running_metric st)
     = {| sample_name := "kafka_connect_connector_state_running";
          sample_labels :=
            [("connector", status_Name st);
             ("state", Strings.ToLower (connector_State (status_Connector st)));
             ("worker", connector_WorkerId (status_Connector st))];
          sample_value := isRunning (connector_State (status_Connector st)) |}
  /\ (Strings.ToLower (connector_State (status_Connector st)) = "running" ->
      isRunning (connector_State (status_Connector st)) = 1)
  /\ (Strings.ToLower (connector_State (status_Connector st)) <> "running" ->
      isRunning (connector_State (status_Connector st)) = 0)
  /\ isRunning "" = 0.
Proof.
  intros Hu Hr Hd. repeat split.
  - rewrite collect_connector_sent. unfold connector_metrics, fetch_status, status_url.
    rewrite Hu. simpl. rewrite Hr. simpl. rewrite Hd. unfold status_metrics. simpl.
    f_equal. induction (status_Tasks st) as [|t ts IH]; simpl; auto.
  - unfold isRunning. intros ->. reflexivity.
  - unfold isRunning. intros H.
    destruct (String.eqb_spec (Strings.ToLower (connector_State (status_Connector st)))
                "running"); congruence.
Qed.

End StateCodes.

(** ** Which bodies decode *)

Section Decodability.
Context `{L : GoLib}.

Lemma decode_string_fits (j : json) (cur : string) :
  is_Some (decode_string j cur) <-> fits_string j = true.
Proof.
  destruct j; simpl; split; intros H; try discriminate; eauto;
    destruct H; discriminate.
Qed.

Lemma decode_float64_fits (j : json) (cur : float64) :
  is_Some (decode_float64 j cur) <-> fits_float64 j = true.
Proof.
  destruct j; simpl; try (split; intros H; [destruct H|]; discriminate);
    try (split; eauto).
  - intros H. apply bool_decide_eq_true. exact H.
  - intros H. apply bool_decide_eq_true in H. exact H.
Qed.

(** Whether a member is accepted does not depend on what the struct holds. *)
Lemma decode_members_fits {S : Type} (step : S -> string * json -> option S)
      (ok : string * json -> bool) :
  (forall s kv, is_Some (step s kv) <-> ok kv = true) ->
  forall ms s, is_Some (decode_members step ms s) <-> forallb ok ms = true.
Proof.
  intros Hstep. induction ms as [|kv ms IH]; intros s; simpl.
  - split; eauto.
  - rewrite andb_true_iff, <- (Hstep s kv).
    destruct (step s kv) as [s'|] eqn:E.
    + rewrite IH. split; [intros H; split; eauto | intros [_ H]; exact H].
    + split; [intros [x Hx]; discriminate | intros [[x Hx] _]; discriminate].
Qed.

Lemma decode_struct_fits {S F : Type} (step : S -> string * json -> option S)
      (tags : list (string * F)) (fits : F -> json -> bool) :
  (forall s kv, is_Some (step s kv)
                <-> match find_field tags (fst kv) None with
                    | Some f => fits f (snd kv)
                    | None => true
                    end = true) ->
  forall j cur, is_Some (decode_struct step j cur) <-> fits_struct tags fits j = true.
Proof.
  intros Hstep j cur.
  destruct j; simpl; try (split; intros H; [destruct H|]; discriminate).
  - split; eauto.
  - apply (decode_members_fits step _ Hstep).
Qed.

Lemma decode_elems_fits {A : Type} (dec : json -> option A) (fits : json -> bool) :
  (forall j, is_Some (dec j) <-> fits j = true) ->
  forall l, is_Some (decode_elems dec l) <-> forallb fits l = true.
Proof.
  intros Hdec. induction l as [|j l IH]; simpl.
  - split; eauto.
  - rewrite andb_true_iff, <- (Hdec j), <- IH.
    destruct (dec j) as [a|]; destruct (decode_elems dec l) as [r|];
      split; try (intros [x Hx]; discriminate); eauto;
      intros [[x Hx] [y Hy]]; discriminate.
Qed.

Lemma decode_slice_fits {A : Type} (dec : json -> option A) (fits : json -> bool) :
  (forall j, is_Some (dec j) <-> fits j = true) ->
  forall j, is_Some (decode_slice dec j) <-> fits_slice fits j = true.
Proof.
  intros Hdec j.
  destruct j; simpl; try (split; intros H; [destruct H|]; discriminate).
  - split; eauto.
  - apply (decode_elems_fits dec fits Hdec).
Qed.

Lemma is_Some_bind_Some {A B : Type} (o : option A) (f : A -> B) :
  is_Some (x ← o; Some (f x)) <-> is_Some o.
Proof. destruct o; simpl; split; intros [x Hx]; try discriminate; eauto. Qed.

Lemma connector_member_fits (c : connector) (kv : string * json) :
  is_Some (connector_member c kv)
  <-> match find_field connector_tags (fst kv) None with
      | Some _ => fits_string (snd kv)
      | None => true
      end = true.
Proof.
  unfold connector_member.
  destruct (find_field connector_tags (fst kv) None) as [[]|];
    rewrite ?is_Some_bind_Some, ?decode_string_fits; try reflexivity.
  split; eauto.
Qed.

Lemma task_member_fits (t : task) (kv : string * json) :
  is_Some (task_member t kv)
  <-> match find_field task_tags (fst kv) None with
      | Some f => match f with tf_id => fits_float64 | _ => fits_string end (snd kv)
      | None => true
      end = true.
Proof.
  unfold task_member.
  destruct (find_field task_tags (fst kv) None) as [[]|];
    rewrite ?is_Some_bind_Some, ?decode_string_fits, ?decode_float64_fits;
    try reflexivity.
  split; eauto.
Qed.

Lemma decode_task_fits (j : json) : is_Some (decode_task j) <-> fits_task j = true.
Proof. apply decode_struct_fits. apply task_member_fits. Qed.

Lemma status_member_fits (st : status) (kv : string * json) :
  is_Some (status_member st kv)
  <-> match find_field status_tags (fst kv) None with
      | Some f => match f with
                  | sf_name => fits_string
                  | sf_connector => fits_connector
                  | sf_tasks => fits_slice fits_task
                  end (snd kv)
      | None => true
      end = true.
Proof.
  unfold status_member.
  destruct (find_field status_tags (fst kv) None) as [[]|];
    rewrite ?is_Some_bind_Some.
  - apply decode_string_fits.
  - apply decode_struct_fits. apply connector_member_fits.
  - apply decode_slice_fits. apply decode_task_fits.
  - split; eauto.
Qed.

(** [json.Unmarshal] into a [status] succeeds exactly on the decodable
    bodies. *)
Lemma Unmarshal_status_decodable (p : payload) :
  is_Some (Unmarshal_status p) <-> decodable p = true.
Proof.
  destruct p as [|j]; simpl.
  - split; [intros [x Hx]|intros H]; discriminate.
  - apply decode_struct_fits. apply status_member_fits.
Qed.

(** C6, as the code has it: with the status response obtained and read, the
    connector is skipped with nothing sent exactly when the body is not
    decodable, that is when it is not JSON or a member that selects a field
    of the struct carries a value of another kind; a decodable body, which
    may lack members, carry unknown ones or hold null, sends the metrics of
    the decoded status, the connector-running metric first. *)
Theorem undecodable_status_is_skipped (u : upstream) (uri c : string) (s : store)
        (resp : Body) (p : payload) :
  u (uri ++ "/connectors/" ++ c ++ "/status") = Some resp ->
  ReadAll_result resp = Some p ->
  (decodable p = false -> sent (snd (collect_connector u uri c s)) = [])
  /\ (decodable p = true ->
      exists st, Unmarshal_status p = Some st
                 /\ sent (snd (collect_connector u uri c s)) = status_metrics st)
  /\ (sent (snd (collect_connector u uri c s)) = [] <-> decodable p = false).
Proof.
  intros Hu Hr.
  assert (Hsent : sent (snd (collect_connector u uri c s))
                  = match Unmarshal_status p with
                    | Some st => status_metrics st
                    | None => []
                    end).
  { rewrite collect_connector_sent. unfold connector_metrics, fetch_status, status_url.
    rewrite Hu. simpl. rewrite Hr. simpl. reflexivity. }
  pose proof (Unmarshal_status_decodable p) as Hdec.
  rewrite Hsent. destruct (Unmarshal_status p) as [st|].
  - assert (decodable p = true) as -> by (apply Hdec; eauto).
    repeat split; try discriminate; eauto.
  - assert (decodable p = false) as ->.
    { destruct (decodable p); [|reflexivity].
      destruct (proj2 Hdec eq_refl) as [x Hx]. discriminate. }
    repeat split; try discriminate; eauto.
Qed.

End Decodability.

(** ** Whole cycles *)

Section Cycles.
Context `{L : GoLib}.

Lemma cycle_descs (u : upstream) (e : Exporter) (f : gauge_field) :
  gauge_desc (get_gauge f (fst (cycle u e))) = gauge_desc (get_gauge f e).
Proof.
  rewrite cycle_exporter. destruct (fetch_listing u (URI e)); destruct f; reflexivity.
Qed.

(** The samples of a cycle do not depend on what the gauges held before. *)
Lemma samples_independent (u : upstream) (e e' : Exporter) :
  URI e = URI e' ->
  gauge_desc (up e) = gauge_desc (up e') ->
  gauge_desc (connectorsCount e) = gauge_desc (connectorsCount e') ->
  samples u e = samples u e'.
Proof.
  intros HU Hup Hcount. rewrite !samples_spec.
  unfold up_sample, count_sample, connector_samples. rewrite HU, Hup, Hcount.
  destruct (u (listing_url (URI e'))) as [resp|]; [|reflexivity].
  destruct (fetch_listing u (URI e')) as [l|]; [|reflexivity].
  do 3 f_equal. induction l as [|c l IH]; simpl; [reflexivity|].
  rewrite IH. f_equal. apply Write_connector_metrics.
Qed.

(** C8: a cycle run on the exporter as the previous cycle left it, against
    the same upstream, yields the same samples: same names, same label
    values, same numbers, in the same order. *)
Theorem consecutive_cycles_same_samples (u : upstream) (e : Exporter) :
  samples u (fst (cycle u e)) = samples u e.
Proof.
  apply samples_independent.
  - apply cycle_URI.
  - apply (cycle_descs u e f_up).
  - apply (cycle_descs u e f_connectorsCount).
Qed.

(** With the listing decoded and its body closed without error, the cycle
    yields the two gauges and then the samples of the connectors. *)
Lemma samples_listing_closed (u : upstream) (e : Exporter) (resp : Body) (l : connectors) :
  u (listing_url (URI e)) = Some resp ->
  Close_fails resp = false ->
  fetch_listing u (URI e) = Some l ->
  samples u e = up_sample e 1 :: count_sample e (Z.of_nat (length l))
                  :: flat_map (connector_samples u e) l.
Proof.
  intros Hu Hc Hl. rewrite samples_spec, Hu, Hl. unfold resent. rewrite Hc.
  simpl. rewrite app_nil_r. reflexivity.
Qed.

(** The sample count of the specification, [2 + N + T], when every status
    fetch succeeds and the listing body closes without error. *)
Lemma sample_count_listing_closed (u : upstream) (e : Exporter) (resp : Body)
      (l : connectors) :
  u (listing_url (URI e)) = Some resp ->
  Close_fails resp = false ->
  fetch_listing u (URI e) = Some l ->
  Forall (fun c => is_Some (fetch_status u (URI e) c)) l ->
  length (samples u e) = (2 + length l + total_tasks u (URI e) l)%nat.
Proof.
  intros Hu Hc Hl Hall. rewrite (samples_listing_closed u e resp l Hu Hc Hl).
  clear Hu Hc Hl. simpl. do 2 f_equal. unfold total_tasks.
  induction Hall as [|c l [st Hst] _ IH]; simpl; [reflexivity|].
  rewrite length_app, IH. unfold connector_samples, connector_metrics. rewrite Hst.
  unfold status_metrics. simpl. rewrite !length_map. lia.
Qed.

(** X6: a failed listing whose response, if any, closes without error
    yields the single sample [up = 0]. *)
Lemma samples_listing_failed (u : upstream) (e : Exporter) :
  fetch_listing u (URI e) = None ->
  (forall resp, u (listing_url (URI e)) = Some resp -> Close_fails resp = false) ->
  samples u e = [up_sample e 0].
Proof.
  intros Hl Hc. rewrite samples_spec, Hl.
  destruct (u (listing_url (URI e))) as [resp|]; [|reflexivity].
  unfold resent. rewrite (Hc resp eq_refl). reflexivity.
Qed.

(** C2: when the listing decodes to names among which the status fetch of
    [c] fails, the cycle still yields [up = 1] and the count of all listed
    names first; [c] contributes nothing; what follows the two gauges is
    what follows them in a cycle whose listing lacks [c]; and [up] is sent
    as many times as in that cycle. *)
Theorem failing_connector_is_skipped (u u' : upstream) (e : Exporter)
        (l1 l2 : connectors) (c : string) (resp resp' : Body) :
  u (listing_url (URI e)) = Some resp ->
  fetch_listing u (URI e) = Some (l1 ++ c :: l2)%list ->
  fetch_status u (URI e) c = None ->
  u' (listing_url (URI e)) = Some resp' ->
  Close_fails resp' = Close_fails resp ->
  fetch_listing u' (URI e) = Some (l1 ++ l2)%list ->
  (forall n, u' (status_url (URI e) n) = u (status_url (URI e) n)) ->
  take 2 (samples u e)
  = [up_sample e 1; count_sample e (Z.of_nat (length (l1 ++ c :: l2)%list))]
  /\ connector_samples u e c = []
  /\ drop 2 (samples u e) = drop 2 (samples u' e)
  /\ length (List.filter is_up_metric (sent (snd (cycle u e))))
     = length (List.filter is_up_metric (sent (snd (cycle u' e)))).
Proof.
  intros Hu Hl Hc Hu' Hclose Hl' Hsame.
  assert (Hcm : forall n, connector_metrics u' (URI e) n = connector_metrics u (URI e) n).
  { intros n. unfold connector_metrics, fetch_status. rewrite Hsame. reflexivity. }
  assert (Hskip : connector_metrics u (URI e) c = []).
  { unfold connector_metrics. rewrite Hc. reflexivity. }
  assert (Hflat : flat_map (connector_metrics u (URI e)) (l1 ++ c :: l2)%list
                  = flat_map (connector_metrics u' (URI e)) (l1 ++ l2)%list).
  { rewrite !flat_map_app. simpl. rewrite Hskip. simpl.
    f_equal; apply flat_map_ext; intros n; rewrite Hcm; reflexivity. }
  assert (Hres : resent resp' = resent resp) by (unfold resent; rewrite Hclose; reflexivity).
  repeat split.
  - rewrite samples_spec, Hu, Hl. reflexivity.
  - unfold connector_samples. rewrite Hskip. reflexivity.
  - unfold samples. rewrite !cycle_sent, Hu, Hu', Hl, Hl'. simpl.
    rewrite Hflat, Hres, !map_app, !(Write_flat_map u' (URI e) _ _ e).
    f_equal. rewrite !cycle_exporter, Hl, Hl'.
    unfold resent. destruct (Close_fails resp); reflexivity.
  - rewrite !cycle_sent, Hu, Hu', Hl, Hl', Hflat, Hres. reflexivity.
Qed.

End Cycles.

(** ** Describe and startup *)

Section Registration.
Context `{L : GoLib}.

(** C10: [Describe] sends the descriptor of the [up] gauge and nothing
    else, on every invocation, also after any number of cycles; the
    descriptors of the connectors count and of the two per-connector metrics
    are not among what it sends. *)
Theorem Describe_sends_only_up (uri : string) (u : upstream) (e : Exporter) :
  Describe e = [gauge_desc (up e)]
  /\ Describe (fst (cycle u e)) = Describe e
  /\ Describe (NewExporter uri)
     = [NewDesc "kafka_connect_up" "was the last scrape of kafka connect successful?" []]
  /\ ~ In (gauge_desc (connectorsCount (NewExporter uri))) (Describe (NewExporter uri))
  /\ ~ In isConnectorRunning (Describe (NewExporter uri))
  /\ ~ In areConnectorTasksRunning (Describe (NewExporter uri)).
Proof.
  repeat split.
  - unfold Describe, Gauge_Describe. f_equal. apply (cycle_descs u e f_up).
  - simpl. intros [H|[]]. discriminate.
  - simpl. intros [H|[]]. discriminate.
  - simpl. intros [H|[]]. discriminate.
Qed.

Lemma supportedSchema_lookup (scheme : string) :
  default false (supportedSchema !! scheme) = true <-> scheme = "http" \/ scheme = "https".
Proof.
  unfold supportedSchema.
  destruct (decide (scheme = "http")) as [->|N1].
  { rewrite lookup_insert_eq. simpl. tauto. }
  rewrite lookup_insert_ne by congruence.
  destruct (decide (scheme = "https")) as [->|N2].
  { rewrite lookup_singleton_eq. simpl. tauto. }
  rewrite lookup_singleton_ne by congruence.
  simpl. split; [discriminate | tauto].
Qed.

(** [main] reaches [http.ListenAndServe] only past the scheme check. *)
Lemma main_Serving (fl : flags) (addr path : string) (e : Exporter) :
  main fl = Serving addr path e ->
  showVersion fl = false
  /\ (url_Parse_Scheme (scrapeURI fl) = Some "http"
      \/ url_Parse_Scheme (scrapeURI fl) = Some "https")
  /\ e = NewExporter (scrapeURI fl).
Proof.
  unfold main. destruct (showVersion fl); [discriminate|].
  destruct (url_Parse_Scheme (scrapeURI fl)) as [scheme|]; [|discriminate].
  destruct (default false (supportedSchema !! scheme)) eqn:E; simpl; [|discriminate].
  apply supportedSchema_lookup in E. intros H. inversion H; subst.
  repeat split. destruct E as [->| ->]; auto.
Qed.

(** A cycle begins with the gauge reset and the GET of the listing,
    whatever the URI is. *)
Lemma cycle_starts_with_GET (u : upstream) (e : Exporter) :
  exists h t, snd (cycle u e) = EvSet f_up 0 :: EvGet (URI e ++ "/connectors") h :: t.
Proof.
  unfold cycle, Collect, mbind, Cmd_bind, Set_, get_URI, client_Get. simpl.
  destruct (u _) as [resp|]; simpl.
  - match goal with
    | |- context [Collect_listing u ?uri ?r ?s] =>
        destruct (Collect_listing u uri r s) as [[[] s1] t1]
    end.
    match goal with
    | |- context [deferred_Close ?r ?s] => destruct (deferred_Close r s) as [[[] s2] t2]
    end.
    simpl. eauto.
  - eauto.
Qed.

(** C9: when the scrape URI does not parse or its scheme is neither http
    nor https, [main] ends in [os.Exit] with a nonzero code and never
    reaches [http.ListenAndServe]; a cycle itself checks no scheme: run on
    an exporter of this very URI it goes straight to the GET. *)
Theorem unsupported_scheme_is_fatal (fl : flags) :
  (url_Parse_Scheme (scrapeURI fl) = None
   \/ exists scheme, url_Parse_Scheme (scrapeURI fl) = Some scheme
                     /\ scheme <> "http" /\ scheme <> "https") ->
  (exists code, main fl = Exit code /\ code <> 0)
  /\ (forall addr path e, main fl <> Serving addr path e)
  /\ (forall u, exists h t,
        snd (cycle u (NewExporter (scrapeURI fl)))
        = EvSet f_up 0 :: EvGet (scrapeURI fl ++ "/connectors") h :: t).
Proof.
  intros Hbad. repeat split.
  - unfold main. destruct (showVersion fl); [exists 2; split; [reflexivity|lia]|].
    destruct Hbad as [->|(scheme & -> & N1 & N2)]; [exists 1; split; [reflexivity|lia]|].
    destruct (default false (supportedSchema !! scheme)) eqn:E; simpl.
    + apply supportedSchema_lookup in E. tauto.
    + exists 1; split; [reflexivity|lia].
  - intros addr path e H. apply main_Serving in H.
    destruct H as (_ & [H|H] & _);
      destruct Hbad as [Hb|(scheme & Hb & N1 & N2)]; congruence.
  - intros u. apply (cycle_starts_with_GET u (NewExporter (scrapeURI fl))).
Qed.

End Registration.

(** ** Response bodies *)

Section Bodies.
Context `{L : GoLib}.

(** The events of one iteration, path by path. [Close] is reached on the
    last path only. *)
Lemma collect_connector_trace (u : upstream) (uri c : string) (s : store) :
  snd (collect_connector u uri c s) =
  match u (status_url uri c) with
  | None => [EvGet (status_url uri c) None; EvLog CantGetStatus]
  | Some resp =>
      EvGet (status_url uri c) (Some (responses s))
        :: EvReadAll (responses s) (bool_decide (is_Some (ReadAll_result resp)))
        :: match ReadAll_result resp with
           | None => [EvLog CantReadBody]
           | Some p =>
               match Unmarshal_status p with
               | None => [EvLog CantDecode]
               | Some st =>
                   (map EvSend (status_metrics st)
                    ++ EvClose (responses s) (negb (Close_fails resp))
                       :: (if Close_fails resp then [EvLog CantCloseConnector] else []))%list
               end
           end
  end.
Proof.
  unfold status_url, collect_connector, Body_Close, ReadAll, mbind, Cmd_bind, client_Get.
  destruct (u _) as [resp|]; simpl; [|reflexivity].
  destruct (ReadAll_result resp) as [p|]; simpl; [|reflexivity].
  destruct (Unmarshal_status p) as [st|]; simpl; [|reflexivity].
  rewrite range_Tasks_run. simpl. rewrite map_map.
  destruct (Close_fails resp); reflexivity.
Qed.

Lemma closed_app (t1 t2 : list event) : closed (t1 ++ t2)%list = (closed t1 ++ closed t2)%list.
Proof. apply omap_app. Qed.

Lemma closed_sends (ms : list Metric) : closed (map EvSend ms) = [].
Proof. induction ms as [|m ms IH]; simpl; [reflexivity | exact IH]. Qed.

(** A status response is closed within its iteration exactly when it was
    read and decoded. *)
Lemma status_body_closed_iff (u : upstream) (uri c : string) (s : store) (resp : Body) :
  u (status_url uri c) = Some resp ->
  closed (snd (collect_connector u uri c s))
  = if bool_decide (is_Some (fetch_status u uri c)) then [responses s] else [].
Proof.
  intros Hu. rewrite collect_connector_trace. unfold fetch_status. rewrite Hu. simpl.
  destruct (ReadAll_result resp) as [p|]; simpl; [|reflexivity].
  destruct (Unmarshal_status p) as [st|]; simpl; [|reflexivity].
  change (closed (map EvSend (task_metric st <$> status_Tasks st)
                  ++ EvClose (responses s) (negb (Close_fails resp))
                     :: (if Close_fails resp then [EvLog CantCloseConnector] else []))%list
          = [responses s]).
  rewrite closed_app, closed_sends. destruct (Close_fails resp); reflexivity.
Qed.

End Bodies.

(** ** Reading a gauge off the channel

    [ch <- e.up] hands the registry the gauge object, which is read some
    time after the send. In a cycle every gauge update comes before the
    first send, so whenever the registry reads, it reads what the gauges
    hold at the end of the cycle: this is what [samples] takes. *)

Section Settled.
Context `{L : GoLib}.

Lemma replay_app (e : Exporter) (t1 t2 : list event) :
  replay e (t1 ++ t2)%list = replay (replay e t1) t2.
Proof. apply fold_left_app. Qed.

Lemma replay_no_set (t : list event) (e : Exporter) :
  forallb (fun ev => negb (is_set ev)) t = true -> replay e t = e.
Proof.
  revert e. induction t as [|ev t IH]; intros e; simpl; [reflexivity|].
  rewrite andb_true_iff. intros [Hev Ht]. unfold replay in *. simpl.
  destruct ev; try discriminate; apply IH; exact Ht.
Qed.

Lemma collect_connector_no_set (u : upstream) (uri c : string) (s : store) :
  forallb (fun ev => negb (is_set ev)) (snd (collect_connector u uri c s)) = true.
Proof.
  rewrite collect_connector_trace.
  destruct (u (status_url uri c)) as [resp|]; simpl; [|reflexivity].
  destruct (ReadAll_result resp) as [p|]; simpl; [|reflexivity].
  destruct (Unmarshal_status p) as [st|]; simpl; [|reflexivity].
  change (forallb (fun ev => negb (is_set ev))
            (map EvSend (task_metric st <$> status_Tasks st)
             ++ EvClose (responses s) (negb (Close_fails resp))
                :: (if Close_fails resp then [EvLog CantCloseConnector] else []))%list
          = true).
  rewrite forallb_app. apply andb_true_iff. split.
  - induction (status_Tasks st) as [|t ts IH]; simpl; auto.
  - destruct (Close_fails resp); reflexivity.
Qed.

Lemma range_connectorsList_no_set (u : upstream) (uri : string) (l : connectors)
      (s : store) :
  forallb (fun ev => negb (is_set ev)) (snd (range_connectorsList u uri l s)) = true.
Proof.
  revert s. induction l as [|c l IH]; intros s; simpl; [reflexivity|].
  unfold mbind, Cmd_bind.
  pose proof (collect_connector_no_set u uri c s) as Hc.
  destruct (collect_connector u uri c s) as [[[] s1] t1]. simpl in Hc.
  specialize (IH s1).
  destruct (range_connectorsList u uri l s1) as [[[] s2] t2]. simpl in *.
  rewrite forallb_app, Hc, IH. reflexivity.
Qed.

(** A cycle is a prefix that sends nothing and brings the gauges to their
    final values, followed by events that update no gauge. *)
Lemma cycle_sets_before_sends (u : upstream) (e : Exporter) :
  exists pre post,
    snd (cycle u e) = (pre ++ post)%list
    /\ forallb (fun ev => negb (is_send ev)) pre = true
    /\ forallb (fun ev => negb (is_set ev)) post = true
    /\ replay e pre = fst (cycle u e).
Proof.
  unfold cycle, Collect.
  unfold Collect_listing, deferred_Close, Body_Close, ReadAll, mbind, Cmd_bind,
    Set_, get_URI, client_Get. simpl.
  destruct (u _) as [resp|]; simpl.
  2: { exists [EvSet f_up 0; EvGet (URI e ++ "/connectors") None; EvLog CantScrape],
              [EvSend (GaugeOf f_up)]. repeat split. }
  destruct (ReadAll_result resp) as [p|]; simpl.
  2: { exists [EvSet f_up 0; EvGet (URI e ++ "/connectors") (Some O); EvReadAll O false;
               EvLog CantScrape].
       destruct (Close_fails resp); simpl; eexists; repeat split. }
  destruct (Unmarshal_connectors p) as [l|]; simpl.
  2: { exists [EvSet f_up 0; EvGet (URI e ++ "/connectors") (Some O); EvReadAll O true;
               EvLog CantScrape].
       destruct (Close_fails resp); simpl; eexists; repeat split. }
  match goal with
  | |- context [range_connectorsList u ?uri l ?s] =>
      pose proof (range_connectorsList_no_set u uri l s) as Hns;
      pose proof (range_connectorsList_exporter u uri l s) as Hex;
      destruct (range_connectorsList u uri l s) as [[[] s2] t2]
  end.
  simpl in *.
  exists [EvSet f_up 0; EvGet (URI e ++ "/connectors") (Some O); EvReadAll O true;
          EvSet f_up 1; EvSet f_connectorsCount (Z.of_nat (length l))].
  destruct (Close_fails resp); simpl; eexists; (split; [reflexivity|]);
    (split; [reflexivity|]);
    (split; [cbn [forallb]; rewrite forallb_app, Hns; reflexivity | symmetry; exact Hex]).
Qed.

Lemma split_at_send (pre post t1 t2 : list event) (m : Metric) :
  (pre ++ post = t1 ++ EvSend m :: t2)%list ->
  forallb (fun ev => negb (is_send ev)) pre = true ->
  exists post1, t1 = (pre ++ post1)%list /\ post = (post1 ++ EvSend m :: t2)%list.
Proof.
  revert t1. induction pre as [|ev pre IH]; intros t1 Heq Hpre; simpl in *.
  - exists t1. auto.
  - apply andb_true_iff in Hpre. destruct Hpre as [Hev Hpre].
    destruct t1 as [|ev1 t1]; simpl in Heq.
    + inversion Heq; subst. discriminate.
    + inversion Heq; subst. destruct (IH t1 H1 Hpre) as (post1 & -> & ->).
      exists post1. auto.
Qed.

(** X8: whenever a metric is on the channel, the gauges already hold what
    they hold at the end of the cycle, and keep it: no gauge is updated
    after the first send, so the registry reads the same value whenever it
    reads the gauge it was sent. *)
Lemma gauges_settled_at_send (u : upstream) (e : Exporter) (t1 t2 : list event)
      (m : Metric) :
  snd (cycle u e) = (t1 ++ EvSend m :: t2)%list ->
  replay e t1 = fst (cycle u e) /\ replay e (snd (cycle u e)) = fst (cycle u e).
Proof.
  intros Hsplit.
  destruct (cycle_sets_before_sends u e) as (pre & post & Ht & Hpre & Hpost & Hfin).
  rewrite Ht in Hsplit.
  destruct (split_at_send pre post t1 t2 m Hsplit Hpre) as (post1 & -> & Hp).
  split.
  - rewrite replay_app, Hfin. apply replay_no_set.
    rewrite Hp, forallb_app in Hpost. apply andb_true_iff in Hpost. tauto.
  - rewrite Ht, replay_app, Hfin. apply replay_no_set. exact Hpost.
Qed.

End Settled.

(** ** Runs on concrete upstreams *)

Section ConcreteRuns.
Import Concrete.
#[local] Existing Instance lib.

(** C1: the listing body is not JSON and closing it fails: the cycle puts
    the [up] gauge on the channel twice, once on the decode failure and once
    more from the deferred close, so two samples [up = 0] come out where
    the claim has exactly one. *)
Theorem failed_listing_sends_up_twice :
  fetch_listing bad_listing_close_fails base = None
  /\ snd (cycle bad_listing_close_fails (NewExporter base))
     = [EvSet f_up 0; EvGet "http://127.0.0.1:8080/connectors" (Some O);
        EvReadAll O true; EvLog CantScrape; EvSend (GaugeOf f_up);
        EvClose O false; EvLog CantCloseConnect; EvSend (GaugeOf f_up)]
  /\ samples bad_listing_close_fails (NewExporter base)
     = [{| sample_name := "kafka_connect_up"; sample_labels := []; sample_value := 0 |};
        {| sample_name := "kafka_connect_up"; sample_labels := []; sample_value := 0 |}].
Proof. repeat split. Qed.

(** C3: the listing decodes to no names and closing its body fails: the
    cycle sends [up], the count and [up] again, three samples where the
    claim has [2 + 0 + 0], with [up = 1] sent twice. *)
Theorem decoded_listing_sends_up_twice :
  fetch_listing empty_listing_close_fails base = Some []
  /\ samples empty_listing_close_fails (NewExporter base)
     = [{| sample_name := "kafka_connect_up"; sample_labels := []; sample_value := 1 |};
        {| sample_name := "kafka_connect_connectors_count"; sample_labels := [];
           sample_value := 0 |};
        {| sample_name := "kafka_connect_up"; sample_labels := []; sample_value := 1 |}]
  /\ length (samples empty_listing_close_fails (NewExporter base)) = 3%nat
  /\ length (List.filter is_up_metric
               (sent (snd (cycle empty_listing_close_fails (NewExporter base))))) = 2%nat.
Proof. repeat split. Qed.

(** C7: the status body of the one connector is not JSON: the iteration
    ends at the decode failure without closing the response, and the cycle
    ends with response 1 obtained and never closed. *)
Theorem undecodable_status_body_is_not_closed :
  snd (cycle undecodable_status (NewExporter base))
  = [EvSet f_up 0; EvGet "http://127.0.0.1:8080/connectors" (Some O);
     EvReadAll O true; EvSet f_up 1; EvSet f_connectorsCount 1;
     EvSend (GaugeOf f_up); EvSend (GaugeOf f_connectorsCount);
     EvGet "http://127.0.0.1:8080/connectors/a/status" (Some 1%nat);
     EvReadAll 1%nat true; EvLog CantDecode; EvClose O true]
  /\ opened (snd (cycle undecodable_status (NewExporter base))) = [O; 1%nat]
  /\ closed (snd (cycle undecodable_status (NewExporter base))) = [O]
  /\ leaked (snd (cycle undecodable_status (NewExporter base))) = [1%nat].
Proof. repeat split. Qed.

(** Against C6 as it is worded: the empty object is not of the shape of the
    specification, yet it decodes, to the zero status, and the connector is
    not skipped: its connector-running sample is emitted. *)
Lemma empty_object_is_not_skipped :
  spec_status_shape (JObj []) = false
  /\ Unmarshal_status (Text (JObj [])) = Some zero_status
  /\ sent (snd (collect_connector empty_object_status base "a"
                  {| exporter := NewExporter base; responses := 1 |}))
     = [ConstMetric isConnectorRunning 0 [""; ""; ""]]
  /\ samples empty_object_status (NewExporter base)
     = [{| sample_name := "kafka_connect_up"; sample_labels := []; sample_value := 1 |};
        {| sample_name := "kafka_connect_connectors_count"; sample_labels := [];
           sample_value := 1 |};
        {| sample_name := "kafka_connect_connector_state_running";
           sample_labels := [("connector", ""); ("state", ""); ("worker", "")];
           sample_value := 0 |}].
Proof. repeat split. Qed.

(** The scenario of the specification: one connector, one running task. *)
Example readme_scenario :
  samples readme_upstream (NewExporter base)
  = [{| sample_name := "kafka_connect_up"; sample_labels := []; sample_value := 1 |};
     {| sample_name := "kafka_connect_connectors_count"; sample_labels := [];
        sample_value := 1 |};
     {| sample_name := "kafka_connect_connector_state_running";
        sample_labels := [("connector", "test-changesets"); ("state", "running");
                          ("worker", "kafka-connect:8083")];
        sample_value := 1 |};
     {| sample_name := "kafka_connect_connector_tasks_state";
        sample_labels := [("connector", "test-changesets"); ("state", "running");
                          ("worker_id", "kafka-connect:8083"); ("id", "0")];
        sample_value := 1 |}].
Proof. reflexivity. Qed.

End ConcreteRuns.

(** ** The theorems at concrete inputs *)

Section Witnesses.
Import Concrete.
#[local] Existing Instance lib.

Lemma failing_connector_is_skipped_witness :
  take 2 (samples second_unreachable (NewExporter base))
  = [up_sample (NewExporter base) 1; count_sample (NewExporter base) 2]
  /\ connector_samples second_unreachable (NewExporter base) "b" = []
  /\ drop 2 (samples second_unreachable (NewExporter base))
     = drop 2 (samples empty_object_status (NewExporter base))
  /\ length (List.filter is_up_metric (sent (snd (cycle second_unreachable (NewExporter base)))))
     = length (List.filter is_up_metric (sent (snd (cycle empty_object_status (NewExporter base))))).
Proof.
  apply (failing_connector_is_skipped second_unreachable empty_object_status
           (NewExporter base) ["a"] [] "b"
           (body_of (Text (JArr [JStr "a"; JStr "b"])) false)
           (body_of (Text (JArr [JStr "a"])) false)).
  - reflexivity.
  - reflexivity.
  - reflexivity.
  - reflexivity.
  - reflexivity.
  - reflexivity.
  - intros n. simpl. reflexivity.
Defined.

Lemma task_state_code_witness :
  Strings.ToLower "RUNNING" = "running" /\ state "RUNNING" = 1.
Proof.
  split; [reflexivity|].
  apply (proj1 task_state_code_total_case_insensitive). reflexivity.
Defined.

Lemma connector_running_sample_witness :
  List.filter is_running_metric
    (sent (snd (collect_connector readme_upstream base "test-changesets"
                  {| exporter := NewExporter base; responses := 1 |})))
  = [ConstMetric isConnectorRunning 1
       ["test-changesets"; "running"; "kafka-connect:8083"]].
Proof.
  apply (proj1 (connector_running_sample readme_upstream base "test-changesets"
                  {| exporter := NewExporter base; responses := 1 |}
                  (body_of (Text changesets_status) false)
                  (Text changesets_status)
                  changesets_decoded
                  (NewExporter base)
                  eq_refl eq_refl eq_refl)).
Defined.

Lemma undecodable_status_is_skipped_witness :
  decodable NotJSON = false
  /\ sent (snd (collect_connector undecodable_status base "a"
                  {| exporter := NewExporter base; responses := 1 |})) = [].
Proof.
  split; [reflexivity|].
  apply (proj1 (undecodable_status_is_skipped undecodable_status base "a"
                  {| exporter := NewExporter base; responses := 1 |}
                  (body_of NotJSON false) NotJSON eq_refl eq_refl)).
  reflexivity.
Defined.

Lemma unsupported_scheme_is_fatal_witness :
  url_Parse_Scheme (scrapeURI ftp_flags) = Some "ftp"
  /\ exists code, main ftp_flags = Exit code /\ code <> 0.
Proof.
  split; [reflexivity|].
  apply (unsupported_scheme_is_fatal ftp_flags).
  right. exists "ftp". split; [reflexivity|]. split; discriminate.
Defined.

Lemma Describe_sends_only_up_witness :
  Describe (NewExporter base)
  = [NewDesc "kafka_connect_up" "was the last scrape of kafka connect successful?" []]
  /\ ~ In (gauge_desc (connectorsCount (NewExporter base))) (Describe (NewExporter base)).
Proof.
  pose proof (Describe_sends_only_up base readme_upstream (NewExporter base)) as H.
  split; [apply H | apply H].
Defined.

End Witnesses.

(** * Further properties of the collector *)

(** ** The shape of a cycle's trace *)

Section Traces.
Context `{L : GoLib}.

Lemma range_connectorsList_cons (u : upstream) (uri c : string) (l : connectors)
      (s : store) :
  snd (range_connectorsList u uri (c :: l) s)
  = (snd (collect_connector u uri c s)
     ++ snd (range_connectorsList u uri l (snd (fst (collect_connector u uri c s)))))%list.
Proof.
  simpl. unfold mbind, Cmd_bind.
  destruct (collect_connector u uri c s) as [[[] s1] t1]. simpl.
  destruct (range_connectorsList u uri l s1) as [[[] s2] t2]. reflexivity.
Qed.

Lemma collect_connector_responses (u : upstream) (uri c : string) (s : store) :
  responses (snd (fst (collect_connector u uri c s)))
  = (responses s + if answered u uri c then 1 else 0)%nat.
Proof.
  unfold answered, status_url, collect_connector, Body_Close, ReadAll, mbind, Cmd_bind,
    client_Get.
  destruct (u _) as [resp|]; simpl; [|lia].
  destruct (ReadAll_result resp) as [p|]; simpl; [|lia].
  destruct (Unmarshal_status p) as [st|]; simpl; [|lia].
  rewrite range_Tasks_run. simpl. destruct (Close_fails resp); simpl; lia.
Qed.

(** A cycle, path by path: the reset and the GET of the listing; after a
    response the read, then either the failure line and [up], or the two
    updates, the two gauges and the loop; and last the deferred close. *)
Lemma cycle_trace (u : upstream) (e : Exporter) :
  match u (listing_url (URI e)) with
  | None =>
      snd (cycle u e)
      = [EvSet f_up 0; EvGet (listing_url (URI e)) None; EvLog CantScrape;
         EvSend (GaugeOf f_up)]
  | Some resp =>
      exists body : list event,
        snd (cycle u e)
        = ([EvSet f_up 0; EvGet (listing_url (URI e)) (Some O);
            EvReadAll O (bool_decide (is_Some (ReadAll_result resp)))]
           ++ body
           ++ EvClose O (negb (Close_fails resp))
              :: (if Close_fails resp
                  then [EvLog CantCloseConnect; EvSend (GaugeOf f_up)] else []))%list
        /\ match fetch_listing u (URI e) with
           | None => body = [EvLog CantScrape; EvSend (GaugeOf f_up)]
           | Some l =>
               exists s1, responses s1 = 1%nat
                 /\ body = ([EvSet f_up 1; EvSet f_connectorsCount (Z.of_nat (length l));
                             EvSend (GaugeOf f_up); EvSend (GaugeOf f_connectorsCount)]
                            ++ snd (range_connectorsList u (URI e) l s1))%list
           end
  end.
Proof.
  unfold cycle, Collect, fetch_listing, listing_url.
  unfold Collect_listing, deferred_Close, Body_Close, ReadAll, mbind, Cmd_bind,
    Set_, get_URI, client_Get. simpl.
  destruct (u _) as [resp|]; simpl; [|reflexivity].
  destruct (ReadAll_result resp) as [p|]; simpl.
  2: { eexists. split; [|reflexivity]. destruct (Close_fails resp); reflexivity. }
  destruct (Unmarshal_connectors p) as [l|]; simpl.
  2: { eexists. split; [|reflexivity]. destruct (Close_fails resp); reflexivity. }
  match goal with
  | |- context [range_connectorsList u ?uri l ?s] =>
      remember s as s1 eqn:Hs1;
      assert (Hr : responses s1 = 1%nat) by (subst s1; reflexivity);
      clear Hs1;
      destruct (range_connectorsList u uri l s1) as [[[] s2] t2] eqn:Hloop
  end.
  exists ([EvSet f_up 1; EvSet f_connectorsCount (Z.of_nat (length l));
           EvSend (GaugeOf f_up); EvSend (GaugeOf f_connectorsCount)] ++ t2)%list.
  split.
  - destruct (Close_fails resp); simpl; rewrite <- ?app_assoc; reflexivity.
  - exists s1. rewrite Hloop. auto.
Qed.

Lemma requests_app (t1 t2 : list event) :
  requests (t1 ++ t2)%list = (requests t1 ++ requests t2)%list.
Proof. apply omap_app. Qed.

Lemma logs_app (t1 t2 : list event) : logs (t1 ++ t2)%list = (logs t1 ++ logs t2)%list.
Proof. apply omap_app. Qed.

Lemma opened_app (t1 t2 : list event) :
  opened (t1 ++ t2)%list = (opened t1 ++ opened t2)%list.
Proof. apply omap_app. Qed.

Lemma projections_of_sends (ms : list Metric) :
  requests (map EvSend ms) = [] /\ logs (map EvSend ms) = []
  /\ opened (map EvSend ms) = [].
Proof. induction ms as [|m ms IH]; simpl; auto. Qed.

End Traces.

(** ** Requests, responses and log lines of a cycle *)

Section Accounting.
Context `{L : GoLib}.

(** What one iteration requests, obtains, closes and logs. *)
Lemma collect_connector_accounts (u : upstream) (uri c : string) (s : store) :
  let t := snd (collect_connector u uri c s) in
  requests t = [status_url uri c]
  /\ opened t = (if answered u uri c then [responses s] else [])
  /\ closed t = (if fetched u uri c then [responses s] else [])
  /\ length (List.filter is_skip_log (logs t)) = (if fetched u uri c then O else 1%nat).
Proof.
  cbv zeta. rewrite collect_connector_trace. unfold answered, fetched, fetch_status.
  destruct (u (status_url uri c)) as [resp|]; simpl; [|auto].
  destruct (ReadAll_result resp) as [p|]; simpl; [|auto].
  destruct (Unmarshal_status p) as [st|]; simpl; [|auto].
  change (task_metric st <$> status_Tasks st) with (map (task_metric st) (status_Tasks st)).
  rewrite requests_app, opened_app, closed_app, logs_app, closed_sends.
  destruct (projections_of_sends (map (task_metric st) (status_Tasks st))) as (-> & -> & ->).
  destruct (Close_fails resp); simpl; auto.
Qed.

Lemma range_connectorsList_requests (u : upstream) (uri : string) (l : connectors)
      (s : store) :
  requests (snd (range_connectorsList u uri l s)) = map (status_url uri) l.
Proof.
  revert s. induction l as [|c l IH]; intros s; [reflexivity|].
  rewrite range_connectorsList_cons, requests_app, IH.
  destruct (collect_connector_accounts u uri c s) as (-> & _). reflexivity.
Qed.

(** X1: a cycle requests the listing first and then, when the listing was
    decoded, the status of every listed name once, in the order of the
    listing, repeated names included; a cycle whose listing fails requests
    nothing else. *)
Theorem cycle_requests (u : upstream) (e : Exporter) :
  requests (snd (cycle u e))
  = listing_url (URI e)
      :: match fetch_listing u (URI e) with
         | Some l => map (status_url (URI e)) l
         | None => []
         end.
Proof.
  pose proof (cycle_trace u e) as H.
  destruct (u (listing_url (URI e))) as [resp|] eqn:Hu.
  - destruct H as (body & -> & Hbody).
    assert (Htail : requests (EvClose O (negb (Close_fails resp))
                              :: (if Close_fails resp
                                  then [EvLog CantCloseConnect; EvSend (GaugeOf f_up)]
                                  else [])) = [])
      by (destruct (Close_fails resp); reflexivity).
    rewrite !requests_app, Htail, app_nil_r. simpl. f_equal.
    destruct (fetch_listing u (URI e)) as [l|].
    + destruct Hbody as (s1 & _ & ->). rewrite requests_app. simpl.
      apply range_connectorsList_requests.
    + subst body. reflexivity.
  - rewrite H. unfold fetch_listing. rewrite Hu. reflexivity.
Qed.

(** The responses of the loop are numbered from the store's counter on;
    as many are obtained as GETs answer, and as many closed as fetches end
    with a decoded status. *)
Lemma range_connectorsList_bodies (u : upstream) (uri : string) (l : connectors)
      (s : store) :
  let t := snd (range_connectorsList u uri l s) in
  length (opened t) = length (List.filter (answered u uri) l)
  /\ length (closed t) = length (List.filter (fetched u uri) l)
  /\ Forall (fun h => (responses s <= h)%nat) (closed t).
Proof.
  cbv zeta. revert s. induction l as [|c l IH]; intros s.
  { simpl. auto. }
  rewrite range_connectorsList_cons, opened_app, closed_app, !length_app.
  destruct (collect_connector_accounts u uri c s) as (_ & Ho & Hc & _).
  destruct (IH (snd (fst (collect_connector u uri c s)))) as (IHo & IHc & IHge).
  rewrite Ho, Hc, IHo, IHc. simpl.
  rewrite collect_connector_responses in IHge.
  repeat split.
  - destruct (answered u uri c); reflexivity.
  - destruct (fetched u uri c); reflexivity.
  - apply Forall_app. split.
    + destruct (fetched u uri c); repeat constructor.
    + eapply Forall_impl; [exact IHge|]. simpl. intros h Hh. lia.
Qed.

(** X2: in a cycle whose listing GET answers, the listing response is
    closed once, as the last response closed, whether it was read and
    decoded or not; besides it the cycle obtains one response per listed
    name whose GET answers and closes one per name whose status was decoded. *)
Theorem cycle_bodies (u : upstream) (e : Exporter) (resp : Body) :
  u (listing_url (URI e)) = Some resp ->
  let names := match fetch_listing u (URI e) with Some l => l | None => [] end in
  let t := snd (cycle u e) in
  (exists cs, closed t = (cs ++ [O])%list /\ Forall (fun h => (1 <= h)%nat) cs)
  /\ length (opened t) = S (length (List.filter (answered u (URI e)) names))
  /\ length (closed t) = S (length (List.filter (fetched u (URI e)) names)).
Proof.
  intros Hu. cbv zeta. pose proof (cycle_trace u e) as H. rewrite Hu in H.
  destruct H as (body & -> & Hbody).
  rewrite !closed_app, !opened_app, !length_app.
  assert (Hclose : closed (EvClose O (negb (Close_fails resp))
                           :: (if Close_fails resp
                               then [EvLog CantCloseConnect; EvSend (GaugeOf f_up)]
                               else [])) = [O])
    by (destruct (Close_fails resp); reflexivity).
  assert (Hopen : opened (EvClose O (negb (Close_fails resp))
                           :: (if Close_fails resp
                               then [EvLog CantCloseConnect; EvSend (GaugeOf f_up)]
                               else [])) = [])
    by (destruct (Close_fails resp); reflexivity).
  rewrite Hclose, Hopen. simpl.
  destruct (fetch_listing u (URI e)) as [l|].
  - destruct Hbody as (s1 & Hs1 & ->). rewrite closed_app, opened_app. simpl.
    destruct (range_connectorsList_bodies u (URI e) l s1) as (Ho & Hc & Hge).
    rewrite Hs1 in Hge. repeat split.
    + eexists. split; [reflexivity | exact Hge].
    + rewrite Ho. lia.
    + rewrite ?length_app, Hc. simpl. lia.
  - subst body. simpl. repeat split. exists []. split; [reflexivity | constructor].
Qed.

Lemma range_connectorsList_skip_logs (u : upstream) (uri : string) (l : connectors)
      (s : store) :
  length (List.filter is_skip_log (logs (snd (range_connectorsList u uri l s))))
  = length (List.filter (fun c => negb (fetched u uri c)) l).
Proof.
  revert s. induction l as [|c l IH]; intros s; [reflexivity|].
  rewrite range_connectorsList_cons, logs_app, List.filter_app, length_app, IH.
  destruct (collect_connector_accounts u uri c s) as (_ & _ & _ & ->). simpl.
  destruct (fetched u uri c); reflexivity.
Qed.

(** X3: with the listing decoded, a cycle writes exactly one of the three
    lines "Can't get /status", "Can't read Body", "Can't decode response"
    per listed name whose status fetch fails, and none for the others. *)
Theorem skipped_connectors_are_logged (u : upstream) (e : Exporter) (l : connectors) :
  fetch_listing u (URI e) = Some l ->
  length (List.filter is_skip_log (logs (snd (cycle u e))))
  = length (List.filter (fun c => negb (fetched u (URI e) c)) l).
Proof.
  intros Hl. pose proof (cycle_trace u e) as H.
  destruct (u (listing_url (URI e))) as [resp|] eqn:Hu.
  2: { unfold fetch_listing in Hl. rewrite Hu in Hl. discriminate. }
  destruct H as (body & -> & Hbody). rewrite Hl in Hbody.
  destruct Hbody as (s1 & _ & ->).
  rewrite !logs_app, !List.filter_app, !length_app.
  rewrite range_connectorsList_skip_logs. simpl.
  destruct (Close_fails resp); simpl; lia.
Qed.

End Accounting.

(** ** What a cycle yields and leaves *)

Section Yield.
Context `{L : GoLib}.

(** X4: every cycle yields at least one sample and its first sample is the
    [up] gauge, with value 1 when the listing was fetched and decoded and 0
    otherwise; the process never answers a scrape without [up]. *)
Theorem up_is_always_first (u : upstream) (e : Exporter) :
  exists rest,
    samples u e
    = up_sample e (match fetch_listing u (URI e) with Some _ => 1 | None => 0 end) :: rest.
Proof.
  rewrite samples_spec.
  destruct (u (listing_url (URI e))) as [resp|] eqn:Hu.
  - destruct (fetch_listing u (URI e)) as [l|]; eauto.
  - unfold fetch_listing. rewrite Hu. simpl. eauto.
Qed.

(** X5: with the listing decoded, the number of samples is 2, plus one per
    listed name whose status was decoded, plus the tasks of those, plus one
    when closing the listing response fails; a name whose fetch fails adds
    nothing. *)
Theorem sample_count (u : upstream) (e : Exporter) (resp : Body) (l : connectors) :
  u (listing_url (URI e)) = Some resp ->
  fetch_listing u (URI e) = Some l ->
  length (samples u e)
  = (2 + length (List.filter (fetched u (URI e)) l) + total_tasks u (URI e) l
     + if Close_fails resp then 1 else 0)%nat.
Proof.
  intros Hu Hl. rewrite samples_spec, Hu, Hl. simpl. rewrite length_app, length_map.
  assert (Hloop : length (flat_map (connector_samples u e) l)
                  = (length (List.filter (fetched u (URI e)) l)
                     + total_tasks u (URI e) l)%nat).
  { clear Hl. unfold total_tasks.
    induction l as [|c l IH]; simpl; [reflexivity|].
    rewrite length_app, IH. unfold connector_samples, connector_metrics, fetched.
    destruct (fetch_status u (URI e) c) as [st|]; simpl; [|reflexivity].
    rewrite !length_map. lia. }
  rewrite Hloop. unfold resent. destruct (Close_fails resp); simpl; lia.
Qed.

(** X7: what a cycle leaves in the exporter: [up] holds 1 after a decoded
    listing and 0 after a failed one; the connectors count holds the number
    of listed names after a decoded listing and is left as it was, stale,
    after a failed one; the URI and the descriptors never change. *)
Theorem cycle_gauges (u : upstream) (e : Exporter) :
  gauge_value (up (fst (cycle u e)))
  = match fetch_listing u (URI e) with Some _ => 1 | None => 0 end
  /\ gauge_value (connectorsCount (fst (cycle u e)))
     = match fetch_listing u (URI e) with
       | Some l => Z.of_nat (length l)
       | None => gauge_value (connectorsCount e)
       end
  /\ URI (fst (cycle u e)) = URI e
  /\ gauge_desc (up (fst (cycle u e))) = gauge_desc (up e)
  /\ gauge_desc (connectorsCount (fst (cycle u e))) = gauge_desc (connectorsCount e).
Proof.
  rewrite cycle_exporter. destruct (fetch_listing u (URI e)); repeat split.
Qed.

(** X13: every constant metric a cycle sends has as many label values as
    its descriptor has labels, so [MustNewConstMetric] never panics on the
    number of labels. *)
Theorem label_arity (u : upstream) (e : Exporter) (d : Desc) (v : Z) (lv : list string) :
  In (ConstMetric d v lv) (sent (snd (cycle u e))) ->
  length lv = length (variableLabels d).
Proof.
  intros Hin. apply cycle_sent_inv in Hin.
  destruct Hin as [Hin|[Hin|(st & [Hin|(t & _ & Hin)])]]; try discriminate.
  - unfold running_metric in Hin. inversion Hin; subst. reflexivity.
  - unfold task_metric in Hin. inversion Hin; subst. reflexivity.
Qed.

End Yield.

(** ** Startup, outcome by outcome *)

Section Outcomes.
Context `{L : GoLib}.


End Outcomes.

(** ** Decoding the documents of the REST interface *)

Section Documents.
Context `{L : GoLib}.

Lemma decode_elems_length {A : Type} (dec : json -> option A) (elems : list json)
      (l : list A) :
  decode_elems dec elems = Some l -> length l = length elems.
Proof.
  revert l. induction elems as [|j elems IH]; intros l; simpl.
  - intros E. inversion E. reflexivity.
  - destruct (dec j) as [a|]; [|discriminate].
    destruct (decode_elems dec elems) as [r|]; [|discriminate].
    intros E. inversion E; subst. simpl. f_equal. apply IH. reflexivity.
Qed.

(** X10: the listing decoder gives back the names of a JSON array of
    strings, in order; [null] decodes to no names and bytes that are not
    JSON to an error; an array decodes exactly when each element is a string
    or [null], and then to as many names as it has elements, so that the
    connectors count is the length of the array. *)
Theorem Unmarshal_connectors_round_trip :
  (forall l, Unmarshal_connectors (Text (connectors_json l)) = Some l)
  /\ Unmarshal_connectors (Text JNull) = Some []
  /\ Unmarshal_connectors NotJSON = None
  /\ (forall elems, is_Some (Unmarshal_connectors (Text (JArr elems)))
                    <-> forallb fits_string elems = true)
  /\ (forall elems l, Unmarshal_connectors (Text (JArr elems)) = Some l ->
                      length l = length elems).
Proof.
  repeat split.
  - intros l. simpl. induction l as [|c l IH]; simpl; [reflexivity|].
    rewrite IH. reflexivity.
  - simpl. apply decode_elems_fits. intros j. apply decode_string_fits.
  - simpl. apply decode_elems_fits. intros j. apply decode_string_fits.
  - intros elems l. simpl. apply decode_elems_length.
Qed.

Lemma decode_task_json (t : task) (n : number) :
  ParseFloat n = Some (task_Id t) -> decode_task (task_json t n) = Some t.
Proof.
  intros Hn. destruct t as [ts ti tw]. simpl in Hn.
  unfold decode_task, task_json. simpl. unfold task_member. simpl.
  rewrite Hn. reflexivity.
Qed.

(** X11: a status written as the document of the REST interface, with
    number literals that parse to the task ids, decodes to that very
    status: the three json tags of [status], the two of [connector] and the
    three of [task] select the fields they name. *)
Theorem Unmarshal_status_round_trip (st : status) (nums : list number) :
  Forall2 (fun t n => ParseFloat n = Some (task_Id t)) (status_Tasks st) nums ->
  Unmarshal_status (Text (status_json st nums)) = Some st.
Proof.
  intros Hnums. destruct st as [name [cs cw] tasks]. simpl in Hnums.
  assert (Htasks : decode_elems decode_task (zip_with task_json tasks nums) = Some tasks).
  { induction Hnums as [|t n tasks nums Hn _ IH]; [reflexivity|].
    cbn [zip_with decode_elems]. rewrite (decode_task_json t n Hn), IH. reflexivity. }
  unfold status_json. simpl. unfold status_member. simpl.
  rewrite Htasks. reflexivity.
Qed.






End Documents.

(** ** Lower-casing ASCII states *)

Section Lowering.
Context `{L : GoLib}.

Lemma lowerByte_ascii (c : ascii) :
  (N_of_ascii c <? Strings.RuneSelf)%N = true ->
  (N_of_ascii (Strings.lowerByte c) <? Strings.RuneSelf)%N = true
  /\ Strings.isUpperByte (Strings.lowerByte c) = false.
Proof.
  destruct c as [b0 b1 b2 b3 b4 b5 b6 b7].
  destruct b0, b1, b2, b3, b4, b5, b6, b7; vm_compute; intros H;
    try discriminate; split; reflexivity.
Qed.

Lemma mapBytes_lowerByte_ascii (s : string) :
  Strings.isASCII s = true ->
  Strings.isASCII (Strings.mapBytes Strings.lowerByte s) = true
  /\ Strings.hasUpper (Strings.mapBytes Strings.lowerByte s) = false
  /\ String.length (Strings.mapBytes Strings.lowerByte s) = String.length s.
Proof.
  induction s as [|c s IH]; simpl; [auto|].
  rewrite andb_true_iff. intros [Hc Hs].
  destruct (lowerByte_ascii c Hc) as [H1 H2]. destruct (IH Hs) as (I1 & I2 & I3).
  rewrite H1, H2, I1, I2, I3. auto.
Qed.

(** X14: on a state made of ASCII bytes, [strings.ToLower] leaves an ASCII
    string of the same length without upper-case letters and is idempotent;
    so the state label of a sample is a fixed point, and the value sent
    with it is the value of the label itself. *)
Theorem ToLower_ascii (s : string) :
  Strings.isASCII s = true ->
  Strings.isASCII (Strings.ToLower s) = true
  /\ Strings.hasUpper (Strings.ToLower s) = false
  /\ String.length (Strings.ToLower s) = String.length s
  /\ Strings.ToLower (Strings.ToLower s) = Strings.ToLower s
  /\ state (Strings.ToLower s) = state s
  /\ isRunning (Strings.ToLower s) = isRunning s.
Proof.
  intros Hs.
  assert (H : Strings.isASCII (Strings.ToLower s) = true
              /\ Strings.hasUpper (Strings.ToLower s) = false
              /\ String.length (Strings.ToLower s) = String.length s).
  { unfold Strings.ToLower. rewrite Hs.
    destruct (Strings.hasUpper s) eqn:Hu; [apply mapBytes_lowerByte_ascii; exact Hs | auto]. }
  destruct H as (H1 & H2 & H3).
  assert (Hidem : Strings.ToLower (Strings.ToLower s) = Strings.ToLower s).
  { unfold Strings.ToLower at 1. rewrite H1, H2. reflexivity. }
  repeat split; auto.
  - unfold state. rewrite Hidem. reflexivity.
  - unfold isRunning. rewrite Hidem. reflexivity.
Qed.

End Lowering.

(** ** The names of the samples *)

Section Names.
Context `{L : GoLib}.

(** X15: whatever the upstream answers, every sample of a cycle of an
    exporter made by [NewExporter] bears one of the four metric names under
    the [kafka_connect] name space, and a gauge sample bears no label. *)
Theorem sample_names (uri : string) (u : upstream) (x : Sample) :
  In x (samples u (NewExporter uri)) ->
  (sample_name x = "kafka_connect_up" /\ sample_labels x = [])
  \/ (sample_name x = "kafka_connect_connectors_count" /\ sample_labels x = [])
  \/ sample_name x = "kafka_connect_connector_state_running"
  \/ sample_name x = "kafka_connect_connector_tasks_state".
Proof.
  unfold samples. intros Hin. apply in_map_iff in Hin.
  destruct Hin as (m & <- & Hm). apply cycle_sent_inv in Hm.
  destruct Hm as [->|[->|(st & [->|(t & _ & ->)])]].
  - left. split; [|reflexivity].
    unfold Write, sample_name. rewrite (cycle_descs u (NewExporter uri) f_up). reflexivity.
  - right. left. split; [|reflexivity].
    unfold Write, sample_name.
    rewrite (cycle_descs u (NewExporter uri) f_connectorsCount). reflexivity.
  - right. right. left. reflexivity.
  - right. right. right. reflexivity.
Qed.

End Names.

(** ** The further properties at concrete inputs *)

Section FurtherWitnesses.
Import Concrete.
#[local] Existing Instance lib.

Lemma cycle_bodies_witness :
  length (opened (snd (cycle undecodable_status (NewExporter base)))) = 2%nat
  /\ length (closed (snd (cycle undecodable_status (NewExporter base)))) = 1%nat.
Proof.
  pose proof (cycle_bodies undecodable_status (NewExporter base)
                (body_of (Text (JArr [JStr "a"])) false) eq_refl) as H.
  split; apply H.
Defined.

Lemma skipped_connectors_are_logged_witness :
  length (List.filter is_skip_log (logs (snd (cycle undecodable_status (NewExporter base)))))
  = 1%nat.
Proof.
  apply (skipped_connectors_are_logged undecodable_status (NewExporter base) ["a"]).
  reflexivity.
Defined.

Lemma sample_count_witness :
  length (samples second_unreachable (NewExporter base)) = 3%nat.
Proof.
  apply (sample_count second_unreachable (NewExporter base)
           (body_of (Text (JArr [JStr "a"; JStr "b"])) false) ["a"; "b"]).
  - reflexivity.
  - reflexivity.
Defined.

Lemma samples_listing_failed_witness :
  samples unreachable (NewExporter base) = [up_sample (NewExporter base) 0].
Proof.
  apply (samples_listing_failed unreachable (NewExporter base)).
  - reflexivity.
  - intros resp H. discriminate H.
Defined.

Lemma gauges_settled_at_send_witness :
  replay (NewExporter base)
    [EvSet f_up 0; EvGet "http://127.0.0.1:8080/connectors" (Some O);
     EvReadAll O true; EvSet f_up 1; EvSet f_connectorsCount 1]
  = fst (cycle readme_upstream (NewExporter base)).
Proof.
  apply (gauges_settled_at_send readme_upstream (NewExporter base)
           [EvSet f_up 0; EvGet "http://127.0.0.1:8080/connectors" (Some O);
            EvReadAll O true; EvSet f_up 1; EvSet f_connectorsCount 1]
           (skipn 6 (snd (cycle readme_upstream (NewExporter base))))
           (GaugeOf f_up)).
  reflexivity.
Defined.


Lemma Unmarshal_connectors_round_trip_witness :
  Unmarshal_connectors (Text (JArr [JStr "a"; JStr "b"])) = Some ["a"; "b"].
Proof. apply (proj1 Unmarshal_connectors_round_trip ["a"; "b"]). Defined.

Lemma Unmarshal_status_round_trip_witness :
  Unmarshal_status (Text (status_json changesets_decoded [0])) = Some changesets_decoded.
Proof.
  apply (Unmarshal_status_round_trip changesets_decoded [0]).
  repeat constructor.
Defined.


Lemma label_arity_witness :
  length ["test-changesets"; "running"; "kafka-connect:8083"; "0"]
  = length (variableLabels areConnectorTasksRunning).
Proof.
  apply (label_arity readme_upstream (NewExporter base) areConnectorTasksRunning 1).
  vm_compute. right. right. right. left. reflexivity.
Defined.

Lemma ToLower_ascii_witness :
  Strings.ToLower (Strings.ToLower "RUNNING") = Strings.ToLower "RUNNING"
  /\ state (Strings.ToLower "RUNNING") = state "RUNNING".
Proof.
  pose proof (ToLower_ascii "RUNNING" eq_refl) as H.
  split; apply H.
Defined.

Lemma sample_names_witness :
  sample_name (up_sample (NewExporter base) 0) = "kafka_connect_up".
Proof.
  destruct (sample_names base unreachable (up_sample (NewExporter base) 0))
    as [[H _]|[[H _]|[H|H]]].
  - left. reflexivity.
  - exact H.
  - discriminate H.
  - discriminate H.
  - discriminate H.
Defined.

End FurtherWitnesses.
